(** * Executive air-traffic dashboard: a shallow embedding of [dashboard.py]

    The script is one function, [crear_dashboard_ejecutivo], that loads a CSV
    table, cleans it, computes aggregates, builds six charts, interpolates
    them into an HTML template and writes the document.

    Modelling choices.
    - A pandas column is a list of cells with a dtype: numeric cells are
      exact rationals ([Qc]) or missing (NaN is [None]); object cells are
      strings or missing.  Rounding, overflow and the IEEE infinities of
      float64 are not part of the model.
    - A DataFrame is the ordered list of its labelled columns; a Series
      indexed by group keys is an association list in index order.
    - An exception is a value of [exn]; code that can raise returns a
      [result].
    - The body of the function is a list of statements over the local
      variables, executed in order; the execution keeps every intermediate
      state, so that in-place updates of a frame are visible.
    - What belongs to pandas, numpy and plotly and has no counterpart in the
      script (the CSV grammar, the numeric-literal grammar, the printing of a
      scalar, the JSON of a figure) is a field of [library]. *)

From Stdlib Require Import ZArith QArith Qcanon Qround Qcabs String Ascii.
From Stdlib Require Import DecimalString Lqa.
From stdpp Require Import numbers strings gmap sorting.
From stdpp Require Import base option list.

Open Scope string_scope.

(** ** Exceptions and results *)

Inductive exn :=
  | FileNotFoundError (msg : string)
  | KeyError (label : string)
  | TypeError (msg : string)
  | ParserError (msg : string)
  | NameError (var : string)
  | OSError (msg : string).

(** [str(e)], as interpolated by the generic handler. *)
Definition str_exn (e : exn) : string :=
  match e with
  | FileNotFoundError m | TypeError m | ParserError m | OSError m => m
  | KeyError k => "'" +:+ k +:+ "'"
  | NameError v => "name '" +:+ v +:+ "' is not defined"
  end.

(** [isinstance(e, FileNotFoundError)]: which [except] clause catches [e]. *)
Definition is_file_not_found (e : exn) : bool :=
  match e with FileNotFoundError _ => true | _ => false end.

Inductive result (A : Type) :=
  | Ok (a : A)
  | Raise (e : exn).
Arguments Ok {A} a.
Arguments Raise {A} e.

#[global] Instance result_ret : MRet result := λ A a, Ok a.
#[global] Instance result_bind : MBind result := λ A B f r,
  match r with Ok a => f a | Raise e => Raise e end.

(** ** Columns, frames and series *)

Inductive column :=
  | NumCol (vs : list (option Qc))
  | ObjCol (vs : list (option string)).

Definition col_length (c : column) : nat :=
  match c with NumCol vs => length vs | ObjCol vs => length vs end.

Abbreviation dataframe := (list (string * column)).

(** A table is rectangular: every column has [n] cells. *)
Definition has_rows (n : nat) (d : dataframe) : Prop :=
  Forall (λ c, col_length c.2 = n) d.

(** [df[name]].  A label borne by several columns selects a frame, not a
    column, and every use the script makes of the selection then raises. *)
Definition getitem (name : string) (d : dataframe) : result column :=
  match filter (λ c, c.1 = name) d with
  | [] => Raise (KeyError name)
  | [c] => Ok c.2
  | _ => Raise (TypeError "arg must be a list, tuple, 1-d array, or Series")
  end.

(** [df[name] = c]: replaces the column in place, or appends a new one. *)
Definition setitem (name : string) (c : column) (d : dataframe) : dataframe :=
  if bool_decide (name ∈ d.*1)
  then (λ p, if bool_decide (p.1 = name) then (name, c) else p) <$> d
  else d ++ [(name, c)].

(** ** Column names (line 18) *)

(** [s.replace(old, new)] for a non-empty [old]: occurrences are replaced
    from left to right and do not overlap.  [skip] counts the characters of
    a matched occurrence that are still to be dropped. *)
Fixpoint replace_from (old new : string) (skip : nat) (s : string) : string :=
  match s with
  | EmptyString => EmptyString
  | String c s' =>
      match skip with
      | S n => replace_from old new n s'
      | O =>
          if String.prefix old s
          then new +:+ replace_from old new (String.length old - 1) s'
          else String c (replace_from old new 0 s')
      end
  end.

Definition replace (old new s : string) : string := replace_from old new 0 s.

Definition is_space (c : ascii) : bool :=
  let n := nat_of_ascii c in
  bool_decide (9 ≤ n ≤ 13)%nat || bool_decide (28 ≤ n ≤ 32)%nat.

Fixpoint lstrip (s : string) : string :=
  match s with
  | String c s' => if is_space c then lstrip s' else s
  | EmptyString => EmptyString
  end.

Definition strip (s : string) : string :=
  String.rev (lstrip (String.rev (lstrip s))).

Definition clean_name (col : string) : string :=
  strip (replace "__" "_" (replace "_(tonnes)" "" col)).

Definition rename_columns (d : dataframe) : dataframe :=
  prod_map clean_name id <$> d.

(** ** Group keys and series *)

Inductive key :=
  | KNum (q : Qc)
  | KStr (s : string).

#[global] Instance key_eq_dec : EqDecision key.
Proof. solve_decision. Defined.

(** The order in which [groupby] lists its groups. *)
Definition key_leb (a b : key) : bool :=
  match a, b with
  | KNum x, KNum y => bool_decide (x ≤ y)%Qc
  | KStr s, KStr t => String.leb s t
  | KNum _, KStr _ => true
  | KStr _, KNum _ => false
  end.

Abbreviation series := (list (key * Qc)).

Definition keys_of (c : column) : list (option key) :=
  match c with
  | NumCol vs => (λ o : option Qc, KNum <$> o) <$> vs
  | ObjCol vs => (λ o : option string, KStr <$> o) <$> vs
  end.

Definition key_num (k : key) : option Qc :=
  match k with KNum q => Some q | KStr _ => None end.

Definition key_str (k : key) : option string :=
  match k with KStr s => Some s | KNum _ => None end.

(** The index of a series, as a column again ([reset_index], [s.index]). *)
Definition index_column (ks : list key) : column :=
  match ks with
  | KNum _ :: _ => NumCol (key_num <$> ks)
  | _ => ObjCol (key_str <$> ks)
  end.

Definition values_column (s : series) : column := NumCol (Some <$> s.*2).

(** The cells of a column that is summed. *)
Definition numeric_values (c : column) : result (list (option Qc)) :=
  match c with
  | NumCol vs => Ok vs
  | ObjCol _ => Raise (TypeError "unsupported operand type(s) for +: 'float' and 'str'")
  end.

Definition sum_list (l : list Qc) : Qc := foldr Qcplus 0%Qc l.

(** [Series.sum()]: missing cells are skipped. *)
Definition nansum (vs : list (option Qc)) : Qc := sum_list (default 0%Qc <$> vs).

(** ** Stable sorting *)

Section Sorting.
Context {A : Type} (leb : A → A → bool).

Fixpoint insert_by (x : A) (l : list A) : list A :=
  match l with
  | [] => [x]
  | y :: l' => if leb x y then x :: l else y :: insert_by x l'
  end.

(** Equal elements keep the order they have in [l]. *)
Definition sort_by (l : list A) : list A := foldr insert_by [] l.
End Sorting.

(** ** Grouped sums *)

Fixpoint add_to_group (k : key) (v : Qc) (g : series) : series :=
  match g with
  | [] => [(k, v)]
  | (k', s) :: g' =>
      if decide (k = k') then (k', (s + v)%Qc) :: g'
      else (k', s) :: add_to_group k v g'
  end.

(** Rows are taken in order; a row whose key is missing belongs to no
    group ([dropna=True] is the default of [groupby]). *)
Fixpoint accumulate (rows : list (option key * option Qc)) (g : series) : series :=
  match rows with
  | [] => g
  | (Some k, v) :: rows' => accumulate rows' (add_to_group k (default 0%Qc v) g)
  | (None, _) :: rows' => accumulate rows' g
  end.

(** Groups are listed by ascending key ([sort=True] is the default). *)
Definition sort_index (s : series) : series :=
  sort_by (λ a b, key_leb a.1 b.1) s.

(** [d.groupby(by)[metric].sum()] *)
Definition groupby_sum (by_ metric : string) (d : dataframe) : result series :=
  kc ← getitem by_ d;
  mc ← getitem metric d;
  vs ← numeric_values mc;
  mret (sort_index (accumulate (zip (keys_of kc) vs) [])).

(** [s.nlargest(n)]: the [n] largest values, largest first; among equal
    values the first occurrences are kept. *)
Definition nlargest (n : nat) (s : series) : series :=
  take n (sort_by (λ a b, bool_decide (b.2 ≤ a.2)%Qc) s).

(** [s.sort_values(ascending=True)] *)
Definition sort_values (s : series) : series :=
  sort_by (λ a b, bool_decide (a.2 ≤ b.2)%Qc) s.

(** Lines 44, 47 and 51:
    [df.groupby(by)['Passengers_Total'].sum().nlargest(10).sort_values(ascending=True)] *)
Definition top10 (by_ : string) (d : dataframe) : result series :=
  s ← groupby_sum by_ "Passengers_Total" d;
  mret (sort_values (nlargest 10 s)).

(** Lines 37-41: [df.groupby('Year').agg({...: 'sum'}).reset_index()] *)
Definition yearly (d : dataframe) : result dataframe :=
  p ← groupby_sum "Year" "Passengers_Total" d;
  f ← groupby_sum "Year" "Freight_Total" d;
  m ← groupby_sum "Year" "Mail_Total" d;
  mret [("Year", index_column p.*1);
        ("Passengers_Total", values_column p);
        ("Freight_Total", values_column f);
        ("Mail_Total", values_column m)].

(** The sum of the values of the rows whose key satisfies [P]. *)
Definition sum_where (P : option key → bool)
    (rows : list (option key * option Qc)) : Qc :=
  nansum ((filter (λ r, P r.1) rows).*2).

(** ** Routes (line 50) *)

(** [column + ' - ']: string concatenation, cell by cell; a missing cell
    stays missing, a numeric column cannot be added to a string. *)
Definition add_literal (c : column) (lit : string) : result column :=
  match c with
  | ObjCol vs => Ok (ObjCol ((λ o : option string, (λ s, s +:+ lit) <$> o) <$> vs))
  | NumCol _ => Raise (TypeError "unsupported operand type(s) for +: 'float' and 'str'")
  end.

Definition add_columns (a b : column) : result column :=
  match a, b with
  | ObjCol xs, ObjCol ys =>
      Ok (ObjCol (zip_with (λ x y : option string, s ← x; t ← y; Some (s +:+ t)) xs ys))
  | _, _ => Raise (TypeError "unsupported operand type(s) for +: 'str' and 'float'")
  end.

(** [df['AustralianPort'] + ' - ' + df['ForeignPort']], operands evaluated
    from left to right. *)
Definition route_column (d : dataframe) : result column :=
  a ← getitem "AustralianPort" d;
  al ← add_literal a " - ";
  f ← getitem "ForeignPort" d;
  add_columns al f.

(** ** The country table and its ISO codes (lines 54-75) *)

Definition country_iso_map : list (string * option string) :=
  [("USA", Some "USA"); ("UK", Some "GBR"); ("New Zealand", Some "NZL");
   ("Singapore", Some "SGP"); ("Japan", Some "JPN"); ("Hong Kong", Some "HKG");
   ("Germany", Some "DEU"); ("Malaysia", Some "MYS"); ("Indonesia", Some "IDN");
   ("Canada", Some "CAN"); ("Thailand", Some "THA"); ("Fiji", Some "FJI");
   ("United Arab Emirates", Some "ARE"); ("Philippines", Some "PHL");
   ("Italy", Some "ITA"); ("Papua New Guinea", Some "PNG"); ("France", Some "FRA");
   ("India", Some "IND"); ("Korea", Some "KOR"); ("South Africa", Some "ZAF");
   ("Netherlands", Some "NLD"); ("Taiwan", Some "TWN"); ("China", Some "CHN");
   ("Greece", Some "GRC"); ("Switzerland", Some "CHE"); ("Ireland", Some "IRL");
   ("Austria", Some "AUT"); ("Sweden", Some "SWE"); ("Denmark", Some "DNK");
   ("Norway", Some "NOR"); ("Spain", Some "ESP"); ("Yugoslavia", Some "YUG");
   ("Western Samoa", Some "WSM"); ("Cook Islands", Some "COK");
   ("Vanuatu", Some "VUT"); ("Solomon Islands", Some "SLB");
   ("New Caledonia", Some "NCL"); ("Tahiti", Some "PYF"); ("Tonga", Some "TON");
   ("Nauru", Some "NRU"); ("Mauritius", Some "MUS"); ("Zimbabwe", Some "ZWE");
   ("Bahrain", Some "BHR"); ("Saudi Arabia", Some "SAU"); ("Brunei", Some "BRN");
   ("Sri Lanka", Some "LKA"); ("Pakistan", Some "PAK"); ("Bangladesh", Some "BGD");
   ("Egypt", Some "EGY"); ("Kenya", Some "KEN"); ("Zambia", Some "ZMB");
   ("Argentina", Some "ARG"); ("Brazil", Some "BRA"); ("Chile", Some "CHL");
   ("Mexico", Some "MEX"); ("Other", None)].

(** [m.get(k)]: [None] when [k] is not a key of the dict, [Some None] when
    it is a key whose value is Python's [None]. *)
Fixpoint dict_get (m : list (string * option string)) (k : string)
    : option (option string) :=
  match m with
  | [] => None
  | (k', v) :: m' => if decide (k = k') then Some v else dict_get m' k
  end.

(** The code that [Series.map(m)] puts in a cell: missing when the country
    is missing, is not a key of [m], or is mapped to [None]. *)
Definition iso_code (m : list (string * option string)) (o : option string)
    : option string :=
  name ← o; mjoin (dict_get m name).

(** [c.map(m)] *)
Definition map_dict (m : list (string * option string)) (c : column) : column :=
  match c with
  | ObjCol vs => ObjCol (iso_code m <$> vs)
  | NumCol vs => ObjCol ((λ _, None) <$> vs)
  end.

(** Line 54: [df.groupby('Country')['Passengers_Total'].sum().reset_index()] *)
Definition country_table (d : dataframe) : result dataframe :=
  s ← groupby_sum "Country" "Passengers_Total" d;
  mret [("Country", index_column s.*1); ("Passengers_Total", values_column s)].

(** Line 75: [cp['iso_alpha'] = cp['Country'].map(country_iso_map)] *)
Definition add_iso_alpha (cp : dataframe) : result dataframe :=
  c ← getitem "Country" cp;
  mret (setitem "iso_alpha" (map_dict country_iso_map c) cp).

(** ** Headline numbers (lines 29-34) *)

Record kpis := {
  total_passengers : Qc;
  total_freight : Qc;
  total_mail : Qc;
  num_years : nat;
  start_year : option key;
  end_year : option key }.

(** [df[name].sum()] *)
Definition column_sum (name : string) (d : dataframe) : result Qc :=
  c ← getitem name d;
  vs ← numeric_values c;
  mret (nansum vs).

Definition present_keys (c : column) : list key := omap id (keys_of c).

(** [.nunique()], [.min()] and [.max()] skip missing cells. *)
Definition nunique (c : column) : nat := length (remove_dups (present_keys c)).

Definition key_min (ks : list key) : option key :=
  foldr (λ k acc, Some (match acc with
                        | Some m => if key_leb k m then k else m
                        | None => k
                        end)) None ks.

Definition key_max (ks : list key) : option key :=
  foldr (λ k acc, Some (match acc with
                        | Some m => if key_leb m k then k else m
                        | None => k
                        end)) None ks.

Definition compute_kpis (d : dataframe) : result kpis :=
  p ← column_sum "Passengers_Total" d;
  f ← column_sum "Freight_Total" d;
  m ← column_sum "Mail_Total" d;
  y ← getitem "Year" d;
  mret {| total_passengers := p; total_freight := f; total_mail := m;
          num_years := nunique y;
          start_year := key_min (present_keys y);
          end_year := key_max (present_keys y) |}.

(** ** The format [,.0f] (lines 165-173) *)

(** The nearest integer, a tie going to the even one. *)
Definition round_half_even (q : Qc) : Z :=
  let f := Qfloor q in
  match ((q - Q2Qc (inject_Z f)) ?= Q2Qc (1 # 2))%Qc with
  | Lt => f
  | Gt => (f + 1)%Z
  | Eq => if Z.even f then f else (f + 1)%Z
  end.

Definition comma : ascii := ","%char.

(** Separators for digits given least significant first; [k] digits of the
    current group have been written. *)
Fixpoint insert_commas (k : nat) (ds : list ascii) : list ascii :=
  match ds with
  | [] => []
  | d :: ds' =>
      match k with
      | 3 => comma :: d :: insert_commas 1 ds'
      | _ => d :: insert_commas (S k) ds'
      end
  end.

Definition group_thousands (digits : string) : string :=
  string_of_list_ascii
    (reverse (insert_commas 0 (reverse (list_ascii_of_string digits)))).

Definition decimal (n : N) : string := NilZero.string_of_uint (N.to_uint n).

(** [format(q, ',.0f')]: sign, then the rounded magnitude in groups of three
    digits. *)
Definition format_kpi (q : Qc) : string :=
  (if bool_decide (q < 0)%Qc then "-" else "")
  +:+ group_thousands (decimal (Z.to_N (round_half_even (Qcabs q)))).

(** ** Python values passed to the chart library *)

Inductive pyobj :=
  | PyBool (b : bool)
  | PyStr (s : string)
  | PyDict (items : list (string * bool)).

#[global] Instance pyobj_eq_dec : EqDecision pyobj.
Proof. solve_decision. Defined.

Definition hashable (o : pyobj) : bool :=
  match o with PyDict _ => false | _ => true end.

Definition type_name (o : pyobj) : string :=
  match o with PyBool _ => "bool" | PyStr _ => "str" | PyDict _ => "dict" end.

(** A set display [{e1, ..., en}] hashes each element in turn; the value
    is the set of the elements. *)
Definition set_display (elems : list pyobj) : result (list pyobj) :=
  match find (λ o, negb (hashable o)) elems with
  | Some o => Raise (TypeError ("unhashable type: '" +:+ type_name o +:+ "'"))
  | None => Ok (remove_dups elems)
  end.

(** ** Charts (lines 80-127) *)

Inductive chart_kind := Area | HBar | Choropleth.

Record figure := {
  kind : chart_kind;
  title : string;
  traces : list (string * column);
  labels : list (string * string);
  style : list (string * string) }.

Definition template : string := "plotly_white".

(** [px.area(frame, x=x, y=y, title=..., labels=..., template=template)]
    followed by [update_traces(line_color=..., fillcolor=...)]. *)
Definition area_chart (frame : dataframe) (x y ttl : string)
    (lbls : list (string * string)) (line fill : string) : result figure :=
  cx ← getitem x frame;
  cy ← getitem y frame;
  mret {| kind := Area; title := ttl; traces := [("x", cx); ("y", cy)];
          labels := lbls;
          style := [("template", template); ("line_color", line);
                    ("fillcolor", fill)] |}.

(** [px.bar(s, x=s.values, y=s.index, orientation='h', ..., text_auto='.2s')]
    followed by [update_traces] and [update_layout]. *)
Definition bar_chart (s : series) (ttl : string)
    (lbls : list (string * string)) (color : string) : figure :=
  {| kind := HBar; title := ttl;
     traces := [("x", values_column s); ("y", index_column s.*1)];
     labels := lbls;
     style := [("template", template); ("orientation", "h");
               ("text_auto", ".2s"); ("marker_color", color);
               ("textposition", "outside");
               ("yaxis.categoryorder", "total ascending")] |}.

(** [px.choropleth(cp, locations="iso_alpha", color="Passengers_Total",
    hover_name="Country", ...)] followed by [update_layout(geo=...)]. *)
Definition choropleth_chart (cp : dataframe) : result figure :=
  loc ← getitem "iso_alpha" cp;
  z ← getitem "Passengers_Total" cp;
  hover ← getitem "Country" cp;
  mret {| kind := Choropleth;
          title := "Distribución Geográfica de Pasajeros";
          traces := [("locations", loc); ("z", z); ("hover_name", hover)];
          labels := [];
          style := [("template", template);
                    ("color_continuous_scale", "Plasma");
                    ("geo.showframe", "False"); ("geo.showcoastlines", "False");
                    ("geo.projection_type", "equirectangular")] |}.

Definition object_cells (c : column) : list (option string) :=
  match c with ObjCol vs => vs | NumCol vs => (λ _, None) <$> vs end.

Definition trace_cells (name : string) (f : figure) : list (option string) :=
  match getitem name (traces f) with
  | Ok c => object_cells c
  | Raise _ => []
  end.

(** The regions a choropleth shades, each with its hover name: a point
    whose location is missing matches no region and is not drawn. *)
Definition plotted (f : figure) : list (string * option string) :=
  omap (λ p : option string * option string, (λ code, (code, p.2)) <$> p.1)
       (zip (trace_cells "locations" f) (trace_cells "hover_name" f)).

Record figures := {
  fig_passengers_trend : figure;
  fig_freight_trend : figure;
  fig_top_ports : figure;
  fig_top_countries : figure;
  fig_top_routes : figure;
  fig_map : figure }.

(** ** What the libraries decide *)

Record library := {
  (** the table [pd.read_csv] builds from the text of a file *)
  read_csv_text : string → result dataframe;
  (** the numeric literals [pd.to_numeric] recognises *)
  parse_number : string → option Qc;
  (** [str] of a numpy scalar, or of NaN *)
  str_scalar : option key → string;
  (** plotly's JSON for the data, the layout and [config] of a figure *)
  figure_json : figure → list pyobj → string }.

Definition dq : string := String (ascii_of_nat 34) EmptyString.

(** [fig.to_html(full_html=False, include_plotlyjs=False, config=config)]:
    a div that holds the chart, named by [div_id], and the script that
    draws into it.  No [div_id] is passed, so plotly draws a fresh one. *)
Definition to_html (L : library) (fig : figure) (config : list pyobj)
    (div_id : string) : string :=
  "<div><div id=" +:+ dq +:+ div_id +:+ dq +:+ " class=" +:+ dq
  +:+ "plotly-graph-div" +:+ dq +:+ "></div><script>Plotly.newPlot("
  +:+ dq +:+ div_id +:+ dq +:+ ", " +:+ figure_json L fig config
  +:+ ")</script></div>".

(** ** The document (lines 130-218)

    The text of the f-string, with one argument for each replacement field. *)
Definition html_template (inicio fin pasajeros carga correo div_passengers_trend div_freight_trend div_map div_top_ports div_top_countries div_top_routes : string) : string :=
  "
        <!DOCTYPE html>
        <html lang=" +:+ dq +:+ "es" +:+ dq +:+ ">
        <head>
            <meta charset=" +:+ dq +:+ "UTF-8" +:+ dq +:+ ">
            <meta name=" +:+ dq +:+ "viewport" +:+ dq +:+ " content=" +:+ dq +:+ "width=device-width, initial-scale=1.0" +:+ dq +:+ ">
            <title>Dashboard Ejecutivo de Tráfico Aéreo</title>
            <script src=" +:+ dq +:+ "https://cdn.plot.ly/plotly-latest.min.js" +:+ dq +:+ "></script>
            <style>
                body { font-family: -apple-system, BlinkMacSystemFont, " +:+ dq +:+ "Segoe UI" +:+ dq +:+ ", Roboto, " +:+ dq +:+ "Helvetica Neue" +:+ dq +:+ ", Arial, sans-serif; margin: 0; background-color: #f8f9fa; color: #212529; }
                .header { background-color: #343a40; color: white; padding: 20px 40px; text-align: center; }
                .header h1 { margin: 0; font-size: 2.5rem; }
                .header p { margin: 5px 0 0; font-size: 1.2rem; color: #adb5bd; }
                .container { padding: 20px; }
                .kpi-container { display: flex; justify-content: space-around; flex-wrap: wrap; gap: 20px; margin-bottom: 30px; }
                .kpi { background-color: white; border-radius: 8px; box-shadow: 0 2px 4px rgba(0,0,0,0.1); padding: 20px; text-align: center; flex-grow: 1; }
                .kpi h3 { margin: 0 0 10px; font-size: 1.2rem; color: #6c757d; }
                .kpi .value { font-size: 2.5rem; font-weight: bold; color: #007bff; }
                .grid-container { display: grid; grid-template-columns: repeat(auto-fit, minmax(48%, 1fr)); gap: 20px; }
                .grid-item { background-color: white; border-radius: 8px; box-shadow: 0 2px 4px rgba(0,0,0,0.1); padding: 20px; }
                .full-width { grid-column: 1 / -1; }
                .insight { padding: 15px; background-color: #e9ecef; border-left: 5px solid #007bff; margin-top: 15px; border-radius: 4px; }
                .insight b { color: #0056b3; }
            </style>
        </head>
        <body>
            <div class=" +:+ dq +:+ "header" +:+ dq +:+ ">
                <h1>Dashboard Ejecutivo: Análisis de Tráfico Aéreo</h1>
                <p>Resumen del Tráfico Internacional de Australia ("
  +:+ inicio
  +:+ "-"
  +:+ fin
  +:+ ")</p>
            </div>

            <div class=" +:+ dq +:+ "container" +:+ dq +:+ ">
                <div class=" +:+ dq +:+ "kpi-container" +:+ dq +:+ ">
                    <div class=" +:+ dq +:+ "kpi" +:+ dq +:+ ">
                        <h3>Total Pasajeros</h3>
                        <p class=" +:+ dq +:+ "value" +:+ dq +:+ ">"
  +:+ pasajeros
  +:+ "</p>
                    </div>
                    <div class=" +:+ dq +:+ "kpi" +:+ dq +:+ ">
                        <h3>Total Carga (toneladas)</h3>
                        <p class=" +:+ dq +:+ "value" +:+ dq +:+ ">"
  +:+ carga
  +:+ "</p>
                    </div>
                    <div class=" +:+ dq +:+ "kpi" +:+ dq +:+ ">
                        <h3>Total Correo (toneladas)</h3>
                        <p class=" +:+ dq +:+ "value" +:+ dq +:+ ">"
  +:+ correo
  +:+ "</p>
                    </div>
                </div>

                <div class=" +:+ dq +:+ "grid-container" +:+ dq +:+ ">
                    <div class=" +:+ dq +:+ "grid-item" +:+ dq +:+ ">
                        "
  +:+ div_passengers_trend
  +:+ "
                        <div class=" +:+ dq +:+ "insight" +:+ dq +:+ ">
                            <b>Análisis Destacado:</b> Se observa un crecimiento sostenido en el número de pasajeros a lo largo de los años, indicando una expansión saludable del mercado. La demanda muestra una tendencia alcista constante.
                        </div>
                    </div>
                    <div class=" +:+ dq +:+ "grid-item" +:+ dq +:+ ">
                        "
  +:+ div_freight_trend
  +:+ "
                        <div class=" +:+ dq +:+ "insight" +:+ dq +:+ ">
                            <b>Análisis Destacado:</b> El transporte de carga también muestra una clara tendencia al alza, lo que refleja un aumento en el comercio y la logística internacional a través de los puertos aéreos australianos.
                        </div>
                    </div>
                    <div class=" +:+ dq +:+ "grid-item full-width" +:+ dq +:+ ">
                        "
  +:+ div_map
  +:+ "
                        <div class=" +:+ dq +:+ "insight" +:+ dq +:+ ">
                            <b>Análisis Destacado:</b> El mapa ilustra la concentración del tráfico de pasajeros en regiones clave como Norteamérica, Europa Occidental y, de manera muy destacada, el Sudeste Asiático y Oceanía. Nueva Zelanda y EE. UU. son los mercados internacionales más importantes.
                        </div>
                    </div>
                    <div class=" +:+ dq +:+ "grid-item" +:+ dq +:+ ">
                        "
  +:+ div_top_ports
  +:+ "
                        <div class=" +:+ dq +:+ "insight" +:+ dq +:+ ">
                            <b>Análisis Destacado:</b> El puerto de Sídney es, con diferencia, el principal punto de entrada y salida internacional de Australia, seguido por Melbourne y Brisbane. Esto subraya su rol como el hub aéreo más crítico del país.
                        </div>
                    </div>
                    <div class=" +:+ dq +:+ "grid-item" +:+ dq +:+ ">
                        "
  +:+ div_top_countries
  +:+ "
                        <div class=" +:+ dq +:+ "insight" +:+ dq +:+ ">
                            <b>Análisis Destacado:</b> Nueva Zelanda, Estados Unidos y el Reino Unido constituyen los tres principales mercados de pasajeros, lo que evidencia fuertes lazos económicos y culturales. Singapur y Japón también son socios estratégicos clave en Asia.
                        </div>
                    </div>
                    <div class=" +:+ dq +:+ "grid-item full-width" +:+ dq +:+ ">
                        "
  +:+ div_top_routes
  +:+ "
                        <div class=" +:+ dq +:+ "insight" +:+ dq +:+ ">
                            <b>Análisis Destacado:</b> La ruta Sídney-Auckland es la más transitada, consolidándose como el corredor aéreo más importante. Las rutas hacia Singapur desde Sídney y Melbourne también son vitales, actuando como puentes hacia el resto de Asia y Europa.
                        </div>
                    </div>
                </div>
            </div>
        </body>
        </html>
        ".

(** ** Numeric coercion (lines 21-24) *)

Definition cols_numericas : list string :=
  ["Passengers_In"; "Freight_In"; "Mail_In"; "Passengers_Out";
   "Freight_Out"; "Mail_Out"; "Passengers_Total"; "Freight_Total"; "Mail_Total"].

(** [pd.to_numeric(c, errors='coerce')]: a float series in which every cell
    that is not a number is NaN. *)
Definition to_numeric_coerce (L : library) (c : column) : list (option Qc) :=
  match c with
  | NumCol vs => vs
  | ObjCol vs => (λ o : option string, o ≫= parse_number L) <$> vs
  end.

(** [.fillna(z)] *)
Definition fillna (z : Qc) (vs : list (option Qc)) : list (option Qc) :=
  (λ o, Some (default z o)) <$> vs.

(** One turn of the loop: [df[col] = pd.to_numeric(df[col], ...).fillna(0)]. *)
Definition coerce_column (L : library) (col : string) (d : dataframe)
    : result dataframe :=
  c ← getitem col d;
  mret (setitem col (NumCol (fillna 0%Qc (to_numeric_coerce L c))) d).

(** The whole loop. *)
Fixpoint coerce_columns (L : library) (cols : list string) (d : dataframe)
    : result dataframe :=
  match cols with
  | [] => Ok d
  | col :: cols' => d' ← coerce_column L col d; coerce_columns L cols' d'
  end.


(** ** Local variables *)

Record locals := {
  df : option dataframe;
  kpi : option kpis;
  yearly_traffic : option dataframe;
  top_aus_ports : option series;
  top_countries : option series;
  top_routes : option series;
  country_passengers : option dataframe;
  figs : option figures;
  html_content : option string }.

Definition no_locals : locals :=
  {| df := None; kpi := None; yearly_traffic := None; top_aus_ports := None;
     top_countries := None; top_routes := None; country_passengers := None;
     figs := None; html_content := None |}.

Definition set_df (x : dataframe) (v : locals) : locals :=
  {| df := Some x; kpi := kpi v; yearly_traffic := yearly_traffic v;
     top_aus_ports := top_aus_ports v; top_countries := top_countries v;
     top_routes := top_routes v; country_passengers := country_passengers v;
     figs := figs v; html_content := html_content v |}.

Definition set_kpi (x : kpis) (v : locals) : locals :=
  {| df := df v; kpi := Some x; yearly_traffic := yearly_traffic v;
     top_aus_ports := top_aus_ports v; top_countries := top_countries v;
     top_routes := top_routes v; country_passengers := country_passengers v;
     figs := figs v; html_content := html_content v |}.

Definition set_yearly_traffic (x : dataframe) (v : locals) : locals :=
  {| df := df v; kpi := kpi v; yearly_traffic := Some x;
     top_aus_ports := top_aus_ports v; top_countries := top_countries v;
     top_routes := top_routes v; country_passengers := country_passengers v;
     figs := figs v; html_content := html_content v |}.

Definition set_top_aus_ports (x : series) (v : locals) : locals :=
  {| df := df v; kpi := kpi v; yearly_traffic := yearly_traffic v;
     top_aus_ports := Some x; top_countries := top_countries v;
     top_routes := top_routes v; country_passengers := country_passengers v;
     figs := figs v; html_content := html_content v |}.

Definition set_top_countries (x : series) (v : locals) : locals :=
  {| df := df v; kpi := kpi v; yearly_traffic := yearly_traffic v;
     top_aus_ports := top_aus_ports v; top_countries := Some x;
     top_routes := top_routes v; country_passengers := country_passengers v;
     figs := figs v; html_content := html_content v |}.

Definition set_top_routes (x : series) (v : locals) : locals :=
  {| df := df v; kpi := kpi v; yearly_traffic := yearly_traffic v;
     top_aus_ports := top_aus_ports v; top_countries := top_countries v;
     top_routes := Some x; country_passengers := country_passengers v;
     figs := figs v; html_content := html_content v |}.

Definition set_country_passengers (x : dataframe) (v : locals) : locals :=
  {| df := df v; kpi := kpi v; yearly_traffic := yearly_traffic v;
     top_aus_ports := top_aus_ports v; top_countries := top_countries v;
     top_routes := top_routes v; country_passengers := Some x;
     figs := figs v; html_content := html_content v |}.

Definition set_figs (x : figures) (v : locals) : locals :=
  {| df := df v; kpi := kpi v; yearly_traffic := yearly_traffic v;
     top_aus_ports := top_aus_ports v; top_countries := top_countries v;
     top_routes := top_routes v; country_passengers := country_passengers v;
     figs := Some x; html_content := html_content v |}.

Definition set_html_content (x : string) (v : locals) : locals :=
  {| df := df v; kpi := kpi v; yearly_traffic := yearly_traffic v;
     top_aus_ports := top_aus_ports v; top_countries := top_countries v;
     top_routes := top_routes v; country_passengers := country_passengers v;
     figs := figs v; html_content := Some x |}.

(** Reading a local variable that has not been assigned. *)
Definition var {A : Type} (name : string) (o : option A) : result A :=
  match o with Some a => Ok a | None => Raise (NameError name) end.

(** ** The world outside the function *)

Record world := {
  files : gmap string string;
  stdout : list string }.

(** What a run does not control: the identifiers plotly draws with
    [uuid.uuid4()], whether [open(path, 'w')] is refused, and how many bytes
    the device takes before a write fails ([None]: all of them). *)
Record environment := {
  uuid4 : nat → string;
  open_error : option exn;
  disk_room : option nat }.

Record state := {
  vars : locals;
  outside : world }.

(** A statement completes in a new state, or raises in the state it has
    reached. *)
Inductive outcome :=
  | Next (s : state)
  | Raised (e : exn) (s : state).

Abbreviation stmt := (state → outcome).

Definition on_vars (f : locals → result locals) : stmt := λ s,
  match f (vars s) with
  | Ok v => Next {| vars := v; outside := outside s |}
  | Raise e => Raised e s
  end.

Definition set_files (fs : gmap string string) (s : state) : state :=
  {| vars := vars s;
     outside := {| files := fs; stdout := stdout (outside s) |} |}.

Definition print (line : string) (w : world) : world :=
  {| files := files w; stdout := stdout w ++ [line] |}.

(** ** The statements of the [try] block *)

(** Line 15: [df = pd.read_csv(ruta_csv)] *)
Definition stmt_read_csv (L : library) (ruta_csv : string) : stmt := λ s,
  match files (outside s) !! ruta_csv with
  | None =>
      Raised (FileNotFoundError
                ("[Errno 2] No such file or directory: '" +:+ ruta_csv +:+ "'")) s
  | Some text =>
      match read_csv_text L text with
      | Ok d => Next {| vars := set_df d (vars s); outside := outside s |}
      | Raise e => Raised e s
      end
  end.

(** Line 18 *)
Definition stmt_rename : stmt := on_vars (λ v,
  d ← var "df" (df v);
  mret (set_df (rename_columns d) v)).

(** Line 24, for one [col] *)
Definition stmt_coerce (L : library) (col : string) : stmt := on_vars (λ v,
  d ← var "df" (df v);
  d' ← coerce_column L col d;
  mret (set_df d' v)).

(** Lines 29-34 *)
Definition stmt_kpis : stmt := on_vars (λ v,
  d ← var "df" (df v);
  k ← compute_kpis d;
  mret (set_kpi k v)).

(** Lines 37-41 *)
Definition stmt_yearly_traffic : stmt := on_vars (λ v,
  d ← var "df" (df v);
  y ← yearly d;
  mret (set_yearly_traffic y v)).

(** Line 44 *)
Definition stmt_top_aus_ports : stmt := on_vars (λ v,
  d ← var "df" (df v);
  r ← top10 "AustralianPort" d;
  mret (set_top_aus_ports r v)).

(** Line 47 *)
Definition stmt_top_countries : stmt := on_vars (λ v,
  d ← var "df" (df v);
  r ← top10 "Country" d;
  mret (set_top_countries r v)).

(** Line 50: [df['Route'] = ...] updates the loaded table in place. *)
Definition stmt_route : stmt := on_vars (λ v,
  d ← var "df" (df v);
  c ← route_column d;
  mret (set_df (setitem "Route" c d) v)).

(** Line 51 *)
Definition stmt_top_routes : stmt := on_vars (λ v,
  d ← var "df" (df v);
  r ← top10 "Route" d;
  mret (set_top_routes r v)).

(** Line 54 *)
Definition stmt_country_passengers : stmt := on_vars (λ v,
  d ← var "df" (df v);
  cp ← country_table d;
  mret (set_country_passengers cp v)).

(** Line 75: [country_passengers['iso_alpha'] = ...] updates the country
    table in place. *)
Definition stmt_iso_alpha : stmt := on_vars (λ v,
  cp ← var "country_passengers" (country_passengers v);
  cp' ← add_iso_alpha cp;
  mret (set_country_passengers cp' v)).

(** Lines 83-127 *)
Definition build_figures (v : locals) : result figures :=
  y ← var "yearly_traffic" (yearly_traffic v);
  f1 ← area_chart y "Year" "Passengers_Total"
         "Evolución Anual del Tráfico de Pasajeros"
         [("Year", "Año"); ("Passengers_Total", "Total de Pasajeros")]
         "#007bff" "rgba(0,123,255,0.2)";
  f2 ← area_chart y "Year" "Freight_Total"
         "Evolución Anual del Tráfico de Carga (toneladas)"
         [("Year", "Año"); ("Freight_Total", "Total de Carga (toneladas)")]
         "#28a745" "rgba(40,167,69,0.2)";
  p ← var "top_aus_ports" (top_aus_ports v);
  c ← var "top_countries" (top_countries v);
  r ← var "top_routes" (top_routes v);
  cp ← var "country_passengers" (country_passengers v);
  m ← choropleth_chart cp;
  mret {| fig_passengers_trend := f1;
          fig_freight_trend := f2;
          fig_top_ports :=
            bar_chart p "Top 10 Puertos Australianos por Pasajeros"
              [("x", "Total de Pasajeros"); ("y", "Puerto Australiano")] "#17a2b8";
          fig_top_countries :=
            bar_chart c "Top 10 Países por Pasajeros"
              [("x", "Total de Pasajeros"); ("y", "País")] "#ffc107";
          fig_top_routes :=
            bar_chart r "Top 10 Rutas por Pasajeros"
              [("x", "Total de Pasajeros"); ("y", "Ruta")] "#dc3545";
          fig_map := m |}.

Definition stmt_figures : stmt := on_vars (λ v,
  f ← build_figures v;
  mret (set_figs f v)).

(** One chart field of the f-string:
    [fig.to_html(full_html=False, include_plotlyjs=False,
                 config={{'displayModeBar': False}})].
    A replacement field holds an expression, in which braces are not
    escapes: the argument [config] is a set display whose one element is
    the dict [{'displayModeBar': False}].  The arguments are evaluated
    before the call. *)
Definition chart_field (L : library) (E : environment) (n : nat) (fig : figure)
    : result string :=
  config ← set_display [PyDict [("displayModeBar", false)]];
  mret (to_html L fig config (uuid4 E n)).

(** Lines 130-218: the replacement fields are evaluated from left to
    right. *)
Definition stmt_html_content (L : library) (E : environment) : stmt := on_vars (λ v,
  k ← var "start_year" (kpi v);
  let inicio := str_scalar L (start_year k) in
  let fin := str_scalar L (end_year k) in
  let pasajeros := format_kpi (total_passengers k) in
  let carga := format_kpi (total_freight k) in
  let correo := format_kpi (total_mail k) in
  f ← var "fig_passengers_trend" (figs v);
  d1 ← chart_field L E 0 (fig_passengers_trend f);
  d2 ← chart_field L E 1 (fig_freight_trend f);
  d3 ← chart_field L E 2 (fig_map f);
  d4 ← chart_field L E 3 (fig_top_ports f);
  d5 ← chart_field L E 4 (fig_top_countries f);
  d6 ← chart_field L E 5 (fig_top_routes f);
  mret (set_html_content
          (html_template inicio fin pasajeros carga correo d1 d2 d3 d4 d5 d6) v)).

(** Lines 221-222: [open(path, 'w')] creates or empties the file; a write
    that the device cuts short leaves the bytes it took. *)
Definition stmt_write (E : environment) (archivo_salida_html : string) : stmt := λ s,
  match html_content (vars s) with
  | None => Raised (NameError "html_content") s
  | Some html =>
      match open_error E with
      | Some e => Raised e s
      | None =>
          match disk_room E with
          | Some n =>
              if bool_decide (n < String.length html)%nat
              then Raised (OSError "[Errno 28] No space left on device")
                     (set_files (<[archivo_salida_html := substring 0 n html]>
                                   (files (outside s))) s)
              else Next (set_files (<[archivo_salida_html := html]>
                                      (files (outside s))) s)
          | None =>
              Next (set_files (<[archivo_salida_html := html]>
                                 (files (outside s))) s)
          end
      end
  end.

Definition msg_ok (archivo_salida_html : string) : string :=
  "¡Dashboard creado exitosamente! El archivo se ha guardado como '"
  +:+ archivo_salida_html +:+ "'".

Definition msg_not_found (ruta_csv : string) : string :=
  "Error: No se encontró el archivo en la ruta '" +:+ ruta_csv
  +:+ "'. Por favor, verifica la ruta.".

Definition msg_error (e : exn) : string :=
  "Ocurrió un error inesperado: " +:+ str_exn e.

(** Line 224 *)
Definition stmt_print_ok (archivo_salida_html : string) : stmt := λ s,
  Next {| vars := vars s; outside := print (msg_ok archivo_salida_html) (outside s) |}.

(** Lines 15-24: load and clean. *)
Definition load_stmts (L : library) (ruta_csv : string) : list stmt :=
  [stmt_read_csv L ruta_csv; stmt_rename] ++ (stmt_coerce L <$> cols_numericas).

(** Lines 29-75: aggregate. *)
Definition aggregate_stmts : list stmt :=
  [stmt_kpis; stmt_yearly_traffic; stmt_top_aus_ports; stmt_top_countries;
   stmt_route; stmt_top_routes; stmt_country_passengers; stmt_iso_alpha].

(** Lines 83-224: build the charts, assemble the document, write it and
    report. *)
Definition report_stmts (L : library) (E : environment)
    (archivo_salida_html : string) : list stmt :=
  [stmt_figures; stmt_html_content L E;
   stmt_write E archivo_salida_html; stmt_print_ok archivo_salida_html].

(** The body of the [try] block. *)
Definition try_body (L : library) (E : environment)
    (ruta_csv archivo_salida_html : string) : list stmt :=
  load_stmts L ruta_csv ++ aggregate_stmts ++ report_stmts L E archivo_salida_html.

(** ** Execution *)

(** The states a block goes through, the first being the one it starts
    in, and the exception that ended it, if one did. *)
Fixpoint exec (ss : list stmt) (s : state) : list state * option exn :=
  match ss with
  | [] => ([s], None)
  | st :: ss' =>
      match st s with
      | Next s' => let r := exec ss' s' in (s :: r.1, r.2)
      | Raised e s' => ([s; s'], Some e)
      end
  end.

Definition final (s : state) (r : list state * option exn) : state :=
  default s (list.last r.1).

Definition initial (w : world) : state := {| vars := no_locals; outside := w |}.

(** Lines 226-229 *)
Definition handler (ruta_csv : string) (e : exn) (w : world) : world :=
  if is_file_not_found e then print (msg_not_found ruta_csv) w
  else print (msg_error e) w.

Definition crear_dashboard_ejecutivo (L : library) (E : environment)
    (ruta_csv archivo_salida_html : string) (w : world) : world :=
  let r := exec (try_body L E ruta_csv archivo_salida_html) (initial w) in
  let w' := outside (final (initial w) r) in
  match r.2 with
  | None => w'
  | Some e => handler ruta_csv e w'
  end.

(** The states of a run, in order. *)
Definition history (L : library) (E : environment)
    (ruta_csv archivo_salida_html : string) (w : world) : list locals :=
  vars <$> (exec (try_body L E ruta_csv archivo_salida_html) (initial w)).1.

(** ** Notions used in the statements *)

(** The columns of [d] that bear the label [name]. *)
Definition with_label (name : string) (d : dataframe) : dataframe :=
  filter (λ c, c.1 = name) d.


Definition is_key (k : key) (o : option key) : bool := bool_decide (o = Some k).

(** Two frames agree on every column but [name]. *)
Definition same_except (name : string) (d d' : dataframe) : Prop :=
  ∀ n, n ≠ name → getitem n d' = getitem n d.

(** Along the states [h], a variable that holds [x] holds from then on a
    value related to [x] by [R]. *)
Definition stable {A : Type} (R : relation A) (get : locals → option A)
    (h : list locals) : Prop :=
  ∀ i j v v' x, (i ≤ j)%nat → h !! i = Some v → h !! j = Some v' →
    get v = Some x → ∃ x', get v' = Some x' ∧ R x x'.

(** Once assigned, the variable is never changed. *)
Definition immutable {A : Type} (get : locals → option A) (h : list locals) : Prop :=
  stable eq get h.


(** What a series holds for the key [k]. *)
Definition group_total (k : key) (g : series) : Qc :=
  sum_list (filter (λ p, p.1 = k) g).*2.

Definition ascending (r : series) : Prop :=
  StronglySorted (λ a b, (a.2 ≤ b.2)%Qc) r.

(** [r] ranks the groups of [sums]: at most ten of them, by ascending sum,
    and no group left out has a larger sum than a group kept. *)
Definition ranking_of (sums r : series) : Prop :=
  (length r ≤ 10)%nat
  ∧ ascending r
  ∧ r ⊆ sums
  ∧ ∀ a b, a ∈ r → b ∈ sums → b.1 ∉ r.*1 → (b.2 ≤ a.2)%Qc.

(** The statements that build a ranking, each with its grouping column and
    the variable it assigns. *)
Definition ranking_stmts : list (string * stmt * (locals → option series)) :=
  [("AustralianPort", stmt_top_aus_ports, top_aus_ports);
   ("Country", stmt_top_countries, top_countries);
   ("Route", stmt_top_routes, top_routes)].

(** ** Notions used in the proofs about runs *)

(** A statement that leaves the world outside as it is. *)
Definition quiet (st : stmt) : Prop :=
  ∀ s, match st s with
       | Next s' => outside s' = outside s
       | Raised _ s' => s' = s
       end.


(** The statements that a run can reach. *)
Definition reached (L : library) (E : environment) (ruta_csv : string) : list stmt :=
  (load_stmts L ruta_csv ++ aggregate_stmts ++ [stmt_figures]) ++ [stmt_html_content L E].

(** The statement leaves the variable as it is. *)
Definition keeps {A : Type} (get : locals → option A) (st : stmt) : Prop :=
  ∀ s, match st s with
       | Next s' | Raised _ s' => get (vars s') = get (vars s)
       end.

(** The statement takes a value of the variable to a related one. *)
Definition evolves {A : Type} (R : relation A) (get : locals → option A)
    (st : stmt) : Prop :=
  ∀ s x, get (vars s) = Some x →
    match st s with
    | Next s' | Raised _ s' => ∃ x', get (vars s') = Some x' ∧ R x x'
    end.

(** ** A small table for the examples *)

Definition qc (a : Z) (b : positive) : Qc := Q2Qc (a # b).

Definition digits_value (s : string) : option N :=
  match s with
  | EmptyString => None
  | _ => N.of_uint <$> NilEmpty.uint_of_string s
  end.

Fixpoint split_at_dot (s : string) : string * option string :=
  match s with
  | EmptyString => (EmptyString, None)
  | String c s' =>
      if Ascii.eqb c "."%char then (EmptyString, Some s')
      else let r := split_at_dot s' in (String c r.1, r.2)
  end.

(** Unsigned decimal literals such as [12] and [1.5]. *)
Definition parse_decimal (s : string) : option Qc :=
  let p := split_at_dot s in
  n ← digits_value p.1;
  match p.2 with
  | None => Some (qc (Z.of_N n) 1)
  | Some frac =>
      f ← digits_value frac;
      Some (qc (Z.of_N n) 1 + qc (Z.of_N f) (Pos.pow 10 (Pos.of_nat (String.length frac))))%Qc
  end.

Definition example_csv : string :=
  "Month,AustralianPort,ForeignPort,Country,Passengers_In,Freight_In_(tonnes),Mail_In_(tonnes),Passengers_Out,Freight_Out_(tonnes),Mail_Out_(tonnes),Passengers_Total,Freight_Total_(tonnes),Mail_Total_(tonnes),Year,Month_num
Jan-85,Sydney,Auckland,New Zealand,100,1.5,0.5,200,2.5,0.5,300,4,1,1985,1
Jan-85,Sydney,London,UK,40,n/a,0,60,1,0,100,1,0,1985,1
Feb-86,Melbourne,Noumea,Other,5,0,0,6,0,0,11,0,0,,2
".

Definition nums (l : list Q) : column :=
  NumCol ((λ q, Some (Q2Qc q)) <$> l).

Definition example_frame : dataframe :=
  [("Month", ObjCol [Some "Jan-85"; Some "Jan-85"; Some "Feb-86"]);
   ("AustralianPort", ObjCol [Some "Sydney"; Some "Sydney"; Some "Melbourne"]);
   ("ForeignPort", ObjCol [Some "Auckland"; Some "London"; Some "Noumea"]);
   ("Country", ObjCol [Some "New Zealand"; Some "UK"; Some "Other"]);
   ("Passengers_In", nums [100; 40; 5]%Q);
   ("Freight_In_(tonnes)", ObjCol [Some "1.5"; Some "n/a"; Some "0"]);
   ("Mail_In_(tonnes)", nums [1 # 2; 0; 0]%Q);
   ("Passengers_Out", nums [200; 60; 6]%Q);
   ("Freight_Out_(tonnes)", nums [5 # 2; 1; 0]%Q);
   ("Mail_Out_(tonnes)", nums [1 # 2; 0; 0]%Q);
   ("Passengers_Total", nums [300; 100; 11]%Q);
   ("Freight_Total_(tonnes)", nums [4; 1; 0]%Q);
   ("Mail_Total_(tonnes)", nums [1; 0; 0]%Q);
   ("Year", NumCol [Some (qc 1985 1); Some (qc 1985 1); None]);
   ("Month_num", nums [1; 1; 2]%Q)].

Definition example_library : library :=
  {| read_csv_text := λ text,
       if decide (text = example_csv) then Ok example_frame
       else Raise (ParserError "Error tokenizing data");
     parse_number := parse_decimal;
     str_scalar := λ o,
       match o with
       | Some (KNum q) => decimal (Z.to_N (Qfloor q))
       | Some (KStr s) => s
       | None => "nan"
       end;
     figure_json := λ _ _, "{}" |}.

Definition example_environment : environment :=
  {| uuid4 := λ n, "div-" +:+ decimal (N.of_nat n);
     open_error := None;
     disk_room := None |}.

Definition example_world : world :=
  {| files := {["city_pairs.csv" := example_csv]}; stdout := [] |}.

(** The example table after lines 18-24. *)
Definition example_clean : dataframe :=
  match coerce_columns example_library cols_numericas (rename_columns example_frame) with
  | Ok d => d
  | Raise _ => []
  end.

Definition unwrap {A : Type} (d : A) (r : result A) : A :=
  match r with Ok a => a | Raise _ => d end.

(** The aggregates of the example table. *)
Definition example_yearly : dataframe := unwrap [] (yearly example_clean).

Definition example_countries : dataframe := unwrap [] (country_table example_clean).

Definition example_countries_iso : dataframe :=
  unwrap [] (add_iso_alpha example_countries).

Definition example_map : figure :=
  unwrap {| kind := Choropleth; title := ""; traces := []; labels := []; style := [] |}
    (choropleth_chart example_countries_iso).

(** The state in which line 44 is executed on the example table, and the
    state it leaves. *)
Definition example_state : state :=
  {| vars := set_df example_clean no_locals; outside := example_world |}.

Definition example_ranked : state :=
  match stmt_top_aus_ports example_state with
  | Next s | Raised _ s => s
  end.

(** Another environment: other identifiers, a full disk. *)
Definition other_environment : environment :=
  {| uuid4 := λ n, "chart-" +:+ decimal (N.of_nat (n + 7));
     open_error := None;
     disk_room := Some 0%nat |}.

(** ** Notions used in the further statements *)



(** [old] occurs in [s]. *)
Fixpoint occurs (old s : string) : bool :=
  String.prefix old s
  || match s with
     | String _ s' => occurs old s'
     | EmptyString => false
     end.

Definition leading_space (s : string) : bool :=
  match s with String c _ => is_space c | EmptyString => false end.

(** A label that line 18 has nothing to do to: no unit suffix, no doubled
    underscore, no white space around it. *)
Definition canonical (s : string) : Prop :=
  occurs "_(tonnes)" s = false
  ∧ occurs "__" s = false
  ∧ leading_space s = false
  ∧ leading_space (String.rev s) = false.

(** ** Further values of the example table *)

Definition example_country_sums : series :=
  unwrap [] (groupby_sum "Country" "Passengers_Total" example_clean).

Definition example_numbers : kpis :=
  unwrap {| total_passengers := 0; total_freight := 0; total_mail := 0;
            num_years := 0; start_year := None; end_year := None |}
    (compute_kpis example_clean).

Definition example_years : column := unwrap (NumCol []) (getitem "Year" example_clean).

Definition example_top_countries : series := unwrap [] (top10 "Country" example_clean).

Definition example_route : column := unwrap (ObjCol []) (route_column example_clean).





(** A file whose third line has more fields than its header. *)
Definition ragged_world : world :=
  {| files := {["city_pairs.csv" := "a,b
1,2
1,2,3
"]}; stdout := [] |}.

(** * Frames *)

Lemma bind_Ok {A B} (r : result A) (f : A → result B) b :
  r ≫= f = Ok b → ∃ a, r = Ok a ∧ f a = Ok b.
Proof. destruct r as [a|e]; [eauto | discriminate]. Qed.

Ltac inv_result :=
  repeat match goal with
  | H : _ ≫= _ = Ok _ |- _ => apply bind_Ok in H as (? & ? & H)
  | H : mret _ = Ok _ |- _ => injection H as H
  | H : Ok _ = Ok _ |- _ => injection H as H
  | H : Raise _ = Ok _ |- _ => discriminate H
  end.

Lemma getitem_Ok name d c :
  getitem name d = Ok c ↔ with_label name d = [(name, c)].
Proof.
  unfold getitem, with_label. split.
  - destruct (filter _ d) as [|[n c'] [|? ?]] eqn:E; try discriminate.
    intros [= <-].
    assert ((n, c') ∈ filter (λ c0 : string * column, c0.1 = name) d) as Hin
      by (rewrite E; left).
    apply list_elem_of_filter in Hin as [Hn _]. simpl in Hn. by subst.
  - intros ->. done.
Qed.

Lemma with_label_replace name x d n :
  with_label n ((λ p : string * column, if bool_decide (p.1 = name) then (name, x) else p) <$> d)
  = if decide (n = name) then (λ _, (name, x)) <$> with_label name d
    else with_label n d.
Proof.
  unfold with_label. induction d as [|[m c] d IH].
  - by destruct (decide _).
  - rewrite fmap_cons, !filter_cons. cbn [fst snd]. rewrite IH. clear IH.
    case_bool_decide as Hm; cbn [fst snd]; repeat case_decide; subst; try done.
Qed.


Lemma with_label_elem name (d : dataframe) p :
  p ∈ with_label name d → name ∈ d.*1.
Proof.
  unfold with_label. intros [<- Hp]%list_elem_of_filter.
  apply list_elem_of_fmap. eauto.
Qed.

Lemma getitem_label name (d : dataframe) c : getitem name d = Ok c → name ∈ d.*1.
Proof.
  intros H%getitem_Ok. apply (with_label_elem name d (name, c)). rewrite H. left.
Qed.

Lemma getitem_setitem name x (d : dataframe) c :
  getitem name d = Ok c → getitem name (setitem name x d) = Ok x.
Proof.
  intros H. apply getitem_Ok. unfold setitem.
  rewrite bool_decide_true by eauto using getitem_label.
  apply getitem_Ok in H. rewrite with_label_replace, decide_True by done.
  by rewrite H.
Qed.

Lemma getitem_setitem_ne name x (d : dataframe) n :
  n ≠ name → getitem n (setitem name x d) = getitem n d.
Proof.
  intros Hne. unfold getitem at 1 2. fold (with_label n (setitem name x d)).
  fold (with_label n d). unfold setitem. case_bool_decide as Hin.
  - by rewrite with_label_replace, decide_False.
  - unfold with_label. rewrite filter_app, filter_cons, filter_nil.
    cbn [fst]. rewrite decide_False by done. by rewrite app_nil_r.
Qed.

Lemma setitem_labels name x (d : dataframe) :
  name ∈ d.*1 → (setitem name x d).*1 = d.*1.
Proof.
  intros Hin. unfold setitem. rewrite bool_decide_true by done.
  rewrite <- list_fmap_compose. apply list_fmap_ext. intros i [m c] _. simpl.
  by case_bool_decide.
Qed.

Lemma getitem_elem name (d : dataframe) c : getitem name d = Ok c → (name, c) ∈ d.
Proof.
  intros H%getitem_Ok.
  assert ((name, c) ∈ with_label name d) as Hin by (rewrite H; left).
  unfold with_label in Hin. by apply list_elem_of_filter in Hin as [_ ?].
Qed.

Lemma has_rows_setitem n name x (d : dataframe) :
  has_rows n d → col_length x = n → has_rows n (setitem name x d).
Proof.
  unfold has_rows, setitem. intros Hd Hx. case_bool_decide.
  - apply Forall_fmap. eapply Forall_impl; [exact Hd|].
    intros [m c] Hc. simpl in *. by case_bool_decide.
  - apply Forall_app. split; [done|]. by repeat constructor.
Qed.

(** * Cleaning *)

Lemma length_to_numeric L c : length (to_numeric_coerce L c) = col_length c.
Proof. destruct c; simpl; [done | by rewrite length_fmap]. Qed.


Lemma coerce_column_inv L col d d' :
  coerce_column L col d = Ok d' →
  ∃ c, getitem col d = Ok c
       ∧ d' = setitem col (NumCol (fillna 0%Qc (to_numeric_coerce L c))) d.
Proof. unfold coerce_column. intros H. inv_result. eauto. Qed.

Lemma coerce_columns_spec L cols : ∀ d d',
  NoDup cols →
  coerce_columns L cols d = Ok d' →
  d'.*1 = d.*1
  ∧ (∀ n, has_rows n d → has_rows n d')
  ∧ (∀ name, name ∉ cols → getitem name d' = getitem name d)
  ∧ (∀ col, col ∈ cols → ∃ c,
        getitem col d = Ok c
        ∧ getitem col d' = Ok (NumCol (fillna 0%Qc (to_numeric_coerce L c)))).
Proof.
  induction cols as [|col cols IH]; intros d d' Hnd H; simpl in H.
  - injection H as <-. repeat split; try done. intros col Hc. by apply elem_of_nil in Hc.
  - apply bind_Ok in H as (d1 & H1 & H).
    apply NoDup_cons in Hnd as [Hcol Hnd].
    apply coerce_column_inv in H1 as (c & Hc & ->).
    destruct (IH _ _ Hnd H) as (Hl & Hr & Ho & Hn).
    repeat split.
    + rewrite Hl. apply setitem_labels. eauto using getitem_label.
    + intros n Hd. apply Hr, has_rows_setitem; [done|].
      simpl. unfold fillna. rewrite length_fmap, length_to_numeric.
      apply getitem_elem in Hc. unfold has_rows in Hd.
      rewrite Forall_forall in Hd. apply (Hd _ Hc).
    + intros name Hname. apply not_elem_of_cons in Hname as [Hne Hname].
      rewrite Ho by done. by apply getitem_setitem_ne.
    + intros col' [->|Hin]%elem_of_cons.
      * exists c. split; [done|]. rewrite Ho by done. eauto using getitem_setitem.
      * destruct (Hn _ Hin) as (c' & Hc' & Hd').
        assert (col' ≠ col) as Hne by (intros ->; done).
        rewrite getitem_setitem_ne in Hc' by done. eauto.
Qed.

Lemma cols_numericas_NoDup : NoDup cols_numericas.
Proof. compute_done. Qed.


(** * Sorting *)

Section SortFacts.
Context {A : Type} (leb : A → A → bool).

Lemma insert_by_Permutation x l : insert_by leb x l ≡ₚ x :: l.
Proof.
  induction l as [|y l IH]; simpl; [done|].
  destruct (leb x y); [done|]. rewrite IH. apply Permutation_swap.
Qed.

Lemma sort_by_Permutation l : sort_by leb l ≡ₚ l.
Proof.
  induction l as [|x l IH]; simpl; [done|].
  by rewrite insert_by_Permutation, IH.
Qed.

Lemma length_sort_by l : length (sort_by leb l) = length l.
Proof. by rewrite sort_by_Permutation. Qed.

Hypothesis leb_total : ∀ x y, leb x y = true ∨ leb y x = true.
Hypothesis leb_trans : ∀ x y z, leb x y = true → leb y z = true → leb x z = true.

Lemma insert_by_sorted x l :
  StronglySorted (λ a b, leb a b = true) l →
  StronglySorted (λ a b, leb a b = true) (insert_by leb x l).
Proof.
  induction 1 as [|y l Hl IH Hy]; simpl.
  - repeat constructor.
  - destruct (leb x y) eqn:E.
    + constructor; [by constructor|]. constructor; [done|].
      eapply Forall_impl; [exact Hy|]. intros z Hz. simpl in Hz. eauto.
    + constructor; [done|]. rewrite insert_by_Permutation.
      constructor; [|done]. destruct (leb_total x y); congruence.
Qed.

Lemma sort_by_sorted l : StronglySorted (λ a b, leb a b = true) (sort_by leb l).
Proof. induction l; simpl; [constructor | by apply insert_by_sorted]. Qed.
End SortFacts.

Lemma StronglySorted_take_drop {A} (R : relation A) n l a b :
  StronglySorted R l → a ∈ take n l → b ∈ drop n l → R a b.
Proof.
  intros Hl Ha Hb. rewrite <- (take_drop n l) in Hl.
  eapply StronglySorted_app_1_elem_of; eauto.
Qed.

Lemma StronglySorted_weaken {A} (R S : relation A) l :
  (∀ x y, R x y → S x y) → StronglySorted R l → StronglySorted S l.
Proof.
  intros HRS. induction 1; constructor; [done|].
  eapply Forall_impl; eauto.
Qed.

(** * Sums *)

Lemma sum_list_app l1 l2 : sum_list (l1 ++ l2) = (sum_list l1 + sum_list l2)%Qc.
Proof.
  induction l1 as [|x l1 IH]; simpl.
  - by rewrite Qcplus_0_l.
  - rewrite IH. apply Qcplus_assoc.
Qed.

#[local] Instance sum_list_Permutation : Proper ((≡ₚ) ==> (=)) sum_list.
Proof.
  induction 1 as [|x l l' _ IH|x y l|l1 l2 l3 _ IH1 _ IH2]; simpl.
  - done.
  - by rewrite IH.
  - rewrite !Qcplus_assoc. f_equal. apply Qcplus_comm.
  - by rewrite IH1.
Qed.



(** * Grouped sums *)


Lemma sum_where_cons P r rows :
  sum_where P (r :: rows)
  = ((if P r.1 then default 0%Qc r.2 else 0) + sum_where P rows)%Qc.
Proof.
  unfold sum_where. rewrite filter_cons. cbn beta.
  case_decide as H; destruct (P r.1); try done.
  by rewrite Qcplus_0_l.
Qed.



Lemma groupby_sum_inv by_ metric d s :
  groupby_sum by_ metric d = Ok s →
  ∃ kc vs, getitem by_ d = Ok kc ∧ getitem metric d = Ok (NumCol vs)
           ∧ s = sort_index (accumulate (zip (keys_of kc) vs) []).
Proof.
  unfold groupby_sum. intros H. inv_result.
  match goal with H : numeric_values ?c = Ok _ |- _ => destruct c; simplify_eq/= end.
  eauto.
Qed.


Lemma length_keys_of c : length (keys_of c) = col_length c.
Proof. destruct c; simpl; by rewrite length_fmap. Qed.

Lemma has_rows_getitem n d name c :
  has_rows n d → getitem name d = Ok c → col_length c = n.
Proof.
  intros Hd Hc%getitem_elem. unfold has_rows in Hd.
  rewrite Forall_forall in Hd. apply (Hd _ Hc).
Qed.


(** * Rankings *)

Lemma sort_values_ascending s : ascending (sort_values s).
Proof.
  unfold ascending, sort_values.
  eapply StronglySorted_weaken; [|apply sort_by_sorted].
  - intros a b H. simpl in H. by apply bool_decide_eq_true in H.
  - intros a b. simpl. rewrite !bool_decide_eq_true.
    destruct (Qclt_le_dec a.2 b.2); [left; by apply Qclt_le_weak | by right].
  - intros a b c. simpl. rewrite !bool_decide_eq_true. apply Qcle_trans.
Qed.

Lemma sort_descending s :
  StronglySorted (λ a b : key * Qc, (b.2 ≤ a.2)%Qc)
    (sort_by (λ a b, bool_decide (b.2 ≤ a.2)%Qc) s).
Proof.
  eapply StronglySorted_weaken; [|apply sort_by_sorted].
  - intros a b H. simpl in H. by apply bool_decide_eq_true in H.
  - intros a b. simpl. rewrite !bool_decide_eq_true.
    destruct (Qclt_le_dec a.2 b.2); [right; by apply Qclt_le_weak | by left].
  - intros a b c. simpl. rewrite !bool_decide_eq_true. intros. by eapply Qcle_trans.
Qed.

Lemma ranking_of_top sums : ranking_of sums (sort_values (nlargest 10 sums)).
Proof.
  unfold ranking_of.
  assert (sort_values (nlargest 10 sums) ≡ₚ nlargest 10 sums) as Hp
    by apply sort_by_Permutation.
  set (sorted := sort_by (λ a b : key * Qc, bool_decide (b.2 ≤ a.2)%Qc) sums).
  assert (sorted ≡ₚ sums) as Hs by apply sort_by_Permutation.
  split_and!.
  - rewrite Hp. unfold nlargest. rewrite length_take. lia.
  - apply sort_values_ascending.
  - intros a. rewrite Hp. unfold nlargest. fold sorted.
    intros Ha%subseteq_take. by rewrite <- Hs.
  - intros a b Ha Hb Hout. rewrite Hp in Ha. unfold nlargest in Ha. fold sorted in Ha.
    assert (b ∈ drop 10 sorted) as Hdrop.
    { rewrite <- Hs, <- (take_drop 10 sorted) in Hb.
      apply elem_of_app in Hb as [Hb|Hb]; [|done].
      exfalso. apply Hout. apply list_elem_of_fmap. exists b. split; [done|].
      rewrite Hp. done. }
    apply (StronglySorted_take_drop _ 10 sorted a b (sort_descending sums) Ha Hdrop).
Qed.

(** C1.  Each of the three statements that build a ranking (by Australian
    port, by country, by route) leaves in its variable a series of at most
    ten groups of the passenger sums, sorted by ascending sum, and no group
    that is left out has a larger sum than a group that is kept. *)
Theorem top10_rankings (by_ : string) (st : stmt) (get : locals → option series)
    (s s' : state) :
  (by_, st, get) ∈ ranking_stmts →
  st s = Next s' →
  ∃ d sums r,
    df (vars s) = Some d
    ∧ groupby_sum by_ "Passengers_Total" d = Ok sums
    ∧ get (vars s') = Some r
    ∧ ranking_of sums r.
Proof.
  intros Hin Hst. unfold ranking_stmts in Hin.
  repeat (apply elem_of_cons in Hin as [Hin|Hin]); [..|by apply elem_of_nil in Hin];
    injection Hin as -> -> ->;
    unfold stmt_top_aus_ports, stmt_top_countries, stmt_top_routes, on_vars in Hst;
    destruct (df (vars s)) as [d|] eqn:Hd; simpl in Hst; try discriminate;
    unfold top10 in Hst;
    destruct (groupby_sum _ "Passengers_Total" d) as [sums|] eqn:Hg;
    simpl in Hst; try discriminate;
    injection Hst as <-; exists d, sums, (sort_values (nlargest 10 sums));
    split_and!; try done; apply ranking_of_top.
Qed.

(** * What a group holds *)

Lemma group_total_cons k p g :
  group_total k (p :: g) = ((if decide (p.1 = k) then p.2 else 0) + group_total k g)%Qc.
Proof.
  unfold group_total. rewrite filter_cons. case_decide; [done|].
  by rewrite Qcplus_0_l.
Qed.

Lemma group_total_add k k' v g :
  group_total k (add_to_group k' v g)
  = (group_total k g + (if decide (k' = k) then v else 0))%Qc.
Proof.
  induction g as [|[k0 s] g IH]; cbn [add_to_group].
  - rewrite group_total_cons. unfold group_total. simpl.
    by rewrite Qcplus_0_l, Qcplus_0_r.
  - destruct (decide (k' = k0)) as [->|Hne]; rewrite !group_total_cons; cbn [fst snd].
    + case_decide.
      * rewrite <- !Qcplus_assoc. f_equal. apply Qcplus_comm.
      * by rewrite Qcplus_0_r.
    + rewrite IH. apply Qcplus_assoc.
Qed.

Lemma group_total_accumulate k rows : ∀ g,
  group_total k (accumulate rows g)
  = (group_total k g + sum_where (is_key k) rows)%Qc.
Proof.
  induction rows as [|[[k'|] v] rows IH]; intros g; cbn [accumulate].
  - unfold sum_where. simpl. by rewrite Qcplus_0_r.
  - rewrite IH, group_total_add, sum_where_cons. cbn [fst snd].
    rewrite <- Qcplus_assoc. f_equal. f_equal. unfold is_key.
    case_decide; case_bool_decide; simplify_eq; done.
  - rewrite IH, sum_where_cons. cbn [fst snd].
    assert (is_key k None = false) as -> by (by apply bool_decide_eq_false).
    by rewrite Qcplus_0_l.
Qed.

Lemma keys_add_to_group k v g :
  (add_to_group k v g).*1 = if decide (k ∈ g.*1) then g.*1 else (g.*1 ++ [k])%list.
Proof.
  induction g as [|[k0 s] g IH]; cbn [add_to_group].
  - rewrite decide_False; [done|]. simpl. apply not_elem_of_nil.
  - destruct (decide (k = k0)) as [->|Hne]; rewrite !fmap_cons; cbn [fst].
    + rewrite decide_True; [done|]. left.
    + rewrite IH. destruct (decide (k ∈ g.*1)) as [Hin|Hout].
      * rewrite decide_True; [done|]. by right.
      * rewrite decide_False; [done|]. by intros [?|?]%elem_of_cons.
Qed.

Lemma NoDup_add_to_group k v g : NoDup g.*1 → NoDup (add_to_group k v g).*1.
Proof.
  intros Hg. rewrite keys_add_to_group. case_decide; [done|].
  apply NoDup_app. split_and!; [done| |apply NoDup_singleton].
  intros x Hx ->%list_elem_of_singleton. done.
Qed.

Lemma NoDup_accumulate rows : ∀ g, NoDup g.*1 → NoDup (accumulate rows g).*1.
Proof.
  induction rows as [|[[k|] v] rows IH]; intros g Hg; cbn [accumulate];
    auto using NoDup_add_to_group.
Qed.

Lemma keys_accumulate k rows : ∀ g,
  k ∈ (accumulate rows g).*1 ↔ Some k ∈ rows.*1 ∨ k ∈ g.*1.
Proof.
  induction rows as [|[[k'|] v] rows IH]; intros g; cbn [accumulate].
  - simpl. rewrite elem_of_nil. tauto.
  - rewrite IH, keys_add_to_group, fmap_cons, elem_of_cons. cbn [fst].
    case_decide; [|rewrite elem_of_app, list_elem_of_singleton];
      split; intros; destruct_or?; simplify_eq; auto.
  - rewrite IH, fmap_cons, elem_of_cons. cbn [fst].
    split; intros; destruct_or?; simplify_eq; auto.
Qed.

Lemma group_total_absent k g : k ∉ g.*1 → group_total k g = 0%Qc.
Proof.
  induction g as [|[k0 s] g IH]; intros Hk; [done|].
  rewrite fmap_cons in Hk. apply not_elem_of_cons in Hk as [Hne Hk].
  rewrite group_total_cons. cbn [fst snd].
  rewrite decide_False by done. rewrite IH by done. apply Qcplus_0_l.
Qed.

Lemma group_total_NoDup g k v : NoDup g.*1 → (k, v) ∈ g → group_total k g = v.
Proof.
  induction g as [|[k0 s] g IH]; intros Hnd Hin.
  - by apply elem_of_nil in Hin.
  - rewrite fmap_cons in Hnd. apply NoDup_cons in Hnd as [Hk0 Hnd].
    rewrite group_total_cons. cbn [fst snd].
    apply elem_of_cons in Hin as [[= <- <-]|Hin].
    + rewrite decide_True by done.
      rewrite group_total_absent by done. apply Qcplus_0_r.
    + rewrite decide_False, Qcplus_0_l; [by apply IH|].
      intros ->. apply Hk0. apply list_elem_of_fmap. by exists (k, v).
Qed.

Lemma groupby_sum_groups by_ metric d s keys vs :
  groupby_sum by_ metric d = Ok s →
  getitem by_ d = Ok keys → getitem metric d = Ok (NumCol vs) →
  NoDup s.*1
  ∧ (∀ k, k ∈ s.*1 ↔ Some k ∈ (zip (keys_of keys) vs).*1)
  ∧ (∀ k v, (k, v) ∈ s → v = sum_where (is_key k) (zip (keys_of keys) vs)).
Proof.
  intros (kc' & vs' & Hk & Hv & ->)%groupby_sum_inv Hk' Hv'.
  assert (kc' = keys) as -> by congruence.
  assert (vs' = vs) as -> by congruence.
  set (rows := zip (keys_of keys) vs).
  assert (sort_index (accumulate rows []) ≡ₚ accumulate rows []) as Hp
    by apply sort_by_Permutation.
  assert (NoDup (accumulate rows []).*1) as Hnd
    by (apply NoDup_accumulate; simpl; apply NoDup_nil_2).
  split_and!.
  - by rewrite Hp.
  - intros k. rewrite Hp, keys_accumulate. simpl. rewrite elem_of_nil. tauto.
  - intros k v Hin. rewrite Hp in Hin.
    rewrite <- (group_total_NoDup _ _ _ Hnd Hin), group_total_accumulate.
    unfold group_total. simpl. by rewrite Qcplus_0_l.
Qed.

(** * The country table and the map *)

Lemma zip_fst_subseteq {A B} (l : list A) (k : list B) x : x ∈ (zip l k).*1 → x ∈ l.
Proof.
  revert k. induction l as [|a l IH]; intros [|b k]; simpl; try (by intros ?%elem_of_nil).
  rewrite !elem_of_cons. intros [->|?]; eauto.
Qed.

Lemma zip_fst_length {A B} (l : list A) (k : list B) :
  length l = length k → (zip l k).*1 = l.
Proof. intros. apply fst_zip. lia. Qed.




Lemma index_column_str ks :
  Forall (λ k, ∃ t, k = KStr t) ks → index_column ks = ObjCol (key_str <$> ks).
Proof. destruct 1 as [|? ? [t ->] ?]; done. Qed.




(** * Execution *)

Lemma on_vars_quiet f : quiet (on_vars f).
Proof. intros s. unfold on_vars. by destruct (f (vars s)). Qed.

Lemma stmt_read_csv_quiet L ruta : quiet (stmt_read_csv L ruta).
Proof.
  intros s. unfold stmt_read_csv.
  destruct (files (outside s) !! ruta); [|done]. by destruct (read_csv_text L _).
Qed.

Lemma load_stmts_quiet L ruta : Forall quiet (load_stmts L ruta).
Proof.
  unfold load_stmts. apply Forall_app. split.
  - repeat constructor; [apply stmt_read_csv_quiet | apply on_vars_quiet].
  - apply Forall_fmap, Forall_true. intros col. apply on_vars_quiet.
Qed.

Lemma aggregate_stmts_quiet : Forall quiet aggregate_stmts.
Proof. repeat constructor; apply on_vars_quiet. Qed.

(** The first chart field raises: a dict cannot be put in a set. *)
Lemma chart_field_raises L E n fig :
  chart_field L E n fig = Raise (TypeError "unhashable type: 'dict'").
Proof. reflexivity. Qed.

Lemma stmt_html_content_raises L E s :
  ∃ e, stmt_html_content L E s = Raised e s ∧ is_file_not_found e = false.
Proof.
  unfold stmt_html_content, on_vars.
  destruct (kpi (vars s)); simpl; [|eauto].
  destruct (figs (vars s)); simpl; eauto.
Qed.


(** The statements after one that always raises are never reached. *)
Lemma exec_cut pre h post :
  (∀ s, ∃ e, h s = Raised e s) →
  ∀ s, exec (pre ++ h :: post) s = exec (pre ++ [h]) s.
Proof.
  intros Hh. induction pre as [|p pre IH]; intros s; simpl.
  - by destruct (Hh s) as [e ->].
  - destruct (p s); [|done]. by rewrite IH.
Qed.

Lemma exec_blocked pre h :
  Forall quiet pre →
  (∀ s, ∃ e, h s = Raised e s) →
  ∀ s, ∃ e, (exec (pre ++ [h]) s).2 = Some e
            ∧ Forall (λ s', outside s' = outside s) (exec (pre ++ [h]) s).1.
Proof.
  intros Hpre Hh. induction Hpre as [|p pre Hp _ IH]; intros s; simpl.
  - destruct (Hh s) as [e ->]. simpl. eauto.
  - specialize (Hp s). destruct (p s) as [s'|e s'].
    + destruct (IH s') as (e & He & Hall). exists e. simpl. split; [done|].
      constructor; [done|]. rewrite <- Hp. exact Hall.
    + subst s'. simpl. eauto.
Qed.

Lemma exec_try_body L E ruta out s :
  exec (try_body L E ruta out) s = exec (reached L E ruta) s.
Proof.
  unfold try_body, reached, report_stmts.
  rewrite <- (exec_cut _ (stmt_html_content L E)
                 [stmt_write E out; stmt_print_ok out]).
  - by rewrite <- ?app_assoc.
  - intros s'. destruct (stmt_html_content_raises L E s') as (e & -> & _). eauto.
Qed.

Lemma final_outside s r :
  Forall (λ s', outside s' = outside s) r.1 → outside (final s r) = outside s.
Proof.
  intros Hall. unfold final. destruct (list.last r.1) as [s'|] eqn:E; [|done].
  simpl. rewrite Forall_forall in Hall. apply Hall.
  apply last_Some in E as [l ->]. apply elem_of_app. right. left.
Qed.

(** Every run ends in the handler, in the world it started in. *)
Lemma run_outcome L E ruta out w :
  ∃ e, (exec (reached L E ruta) (initial w)).2 = Some e
       ∧ crear_dashboard_ejecutivo L E ruta out w = handler ruta e w.
Proof.
  unfold crear_dashboard_ejecutivo. rewrite exec_try_body. unfold reached.
  destruct (exec_blocked (load_stmts L ruta ++ aggregate_stmts ++ [stmt_figures])
              (stmt_html_content L E)) with (s := initial w) as (e & He & Hall).
  - apply Forall_app. split; [apply load_stmts_quiet|].
    apply Forall_app. split; [apply aggregate_stmts_quiet|].
    repeat constructor. apply on_vars_quiet.
  - intros s'. destruct (stmt_html_content_raises L E s') as (e & -> & _). eauto.
  - exists e. split; [done|]. rewrite He. by rewrite (final_outside _ _ Hall).
Qed.

Lemma handler_files ruta e w : files (handler ruta e w) = files w.
Proof. unfold handler. by destruct (is_file_not_found e). Qed.

Lemma handler_stdout ruta e w :
  stdout (handler ruta e w)
  = (stdout w ++ [if is_file_not_found e then msg_not_found ruta else msg_error e])%list.
Proof. unfold handler. by destruct (is_file_not_found e). Qed.







Lemma run_files L E ruta out w :
  files (crear_dashboard_ejecutivo L E ruta out w) = files w.
Proof.
  destruct (run_outcome L E ruta out w) as (e & _ & ->). apply handler_files.
Qed.

(** C4.  No run leaves a partial document: every run leaves every file,
    the output file among them, as it found it, and ends with one printed
    diagnostic.  The statement that writes is never reached, because the
    assembly of the document always raises. *)
Theorem no_partial_output (L : library) (E : environment)
    (ruta_csv archivo_salida_html : string) (w : world) :
  files (crear_dashboard_ejecutivo L E ruta_csv archivo_salida_html w) = files w
  ∧ ∃ e, stdout (crear_dashboard_ejecutivo L E ruta_csv archivo_salida_html w)
         = (stdout w ++ [if is_file_not_found e then msg_not_found ruta_csv
                         else msg_error e])%list.
Proof.
  destruct (run_outcome L E ruta_csv archivo_salida_html w) as (e & _ & ->).
  split; [apply handler_files|]. exists e. apply handler_stdout.
Qed.




(** * How the variables evolve along a run *)

Section Evolution.
Context {A : Type} (R : relation A) `{!PreOrder R} (get : locals → option A).

Lemma keeps_evolves st : keeps get st → evolves R get st.
Proof.
  intros Hk s x Hx. specialize (Hk s).
  destruct (st s); rewrite Hk; by exists x.
Qed.

Lemma on_vars_keeps f :
  (∀ v v', f v = Ok v' → get v' = get v) → keeps get (on_vars f).
Proof.
  intros Hf s. unfold on_vars. destruct (f (vars s)) eqn:E; [|done].
  simpl. eauto.
Qed.

Lemma exec_keeps ss :
  Forall (keeps get) ss →
  ∀ s, Forall (λ s', get (vars s') = get (vars s)) (exec ss s).1.
Proof.
  induction 1 as [|st ss Hst _ IH]; intros s; cbn [exec].
  - by repeat constructor.
  - specialize (Hst s). destruct (st s) as [s'|e s']; cbn [fst].
    + constructor; [done|]. rewrite <- Hst. apply IH.
    + by repeat constructor.
Qed.

Lemma exec_reach ss :
  Forall (evolves R get) ss →
  ∀ s x, get (vars s) = Some x →
    Forall (λ s', ∃ x', get (vars s') = Some x' ∧ R x x') (exec ss s).1.
Proof.
  induction 1 as [|st ss Hst _ IH]; intros s x Hx; cbn [exec].
  - repeat constructor. by exists x.
  - specialize (Hst s x Hx). destruct (st s) as [s'|e s']; cbn [fst].
    + destruct Hst as (x' & Hx' & Hxx'). constructor; [by exists x|].
      eapply Forall_impl; [apply (IH s' x' Hx')|].
      intros s'' (x'' & ? & ?). exists x''. split; [done|]. by etrans.
    + repeat constructor; [by exists x | done].
Qed.

Lemma stable_cons v l :
  (∀ x, get v = Some x → Forall (λ v', ∃ x', get v' = Some x' ∧ R x x') l) →
  stable R get l → stable R get (v :: l).
Proof.
  intros Hv Hl [|i] [|j] a b x Hij Ha Hb Hx; simplify_eq/=; try lia.
  - by exists x.
  - specialize (Hv x Hx). rewrite Forall_forall in Hv.
    apply Hv. by eapply list_elem_of_lookup_2.
  - eapply (Hl i j); eauto. lia.
Qed.

Lemma stable_nil : stable R get [].
Proof. intros i j a b x _ Ha. by rewrite lookup_nil in Ha. Qed.

Lemma stable_cons_None v l : get v = None → stable R get l → stable R get (v :: l).
Proof. intros Hv. apply stable_cons. intros x. by rewrite Hv. Qed.

Lemma stable_singleton v : stable R get [v].
Proof.
  apply stable_cons; [|apply stable_nil]. intros. constructor.
Qed.

Lemma Forall_vars (P : locals → Prop) (l : list state) :
  Forall (λ s, P (vars s)) l → Forall P (vars <$> l).
Proof. intros. by apply Forall_fmap. Qed.

Lemma exec_evolves ss :
  Forall (evolves R get) ss → ∀ s, stable R get (vars <$> (exec ss s).1).
Proof.
  induction 1 as [|st ss Hst Hss IH]; intros s; cbn [exec].
  - apply stable_singleton.
  - pose proof (Hst s) as Hs. destruct (st s) as [s'|e s']; cbn [fst];
      rewrite fmap_cons; apply stable_cons.
    + intros x Hx. destruct (Hs x Hx) as (x' & Hx' & Hxx').
      apply Forall_vars. eapply Forall_impl; [apply (exec_reach ss Hss s' x' Hx')|].
      intros s'' (x'' & ? & ?). exists x''. split; [done|]. by etrans.
    + apply IH.
    + intros x Hx. destruct (Hs x Hx) as (x' & Hx' & Hxx').
      repeat constructor. eauto.
    + apply stable_singleton.
Qed.

(** A variable that is assigned by one statement, not touched before it
    and evolved after it. *)
Lemma exec_assigned pre st post :
  Forall (keeps get) pre → Forall (evolves R get) post →
  ∀ s, get (vars s) = None →
    stable R get (vars <$> (exec (pre ++ st :: post) s).1).
Proof.
  intros Hpre Hpost. induction Hpre as [|p pre Hp _ IH]; intros s Hs;
    cbn [app exec].
  - destruct (st s) as [s'|e s']; cbn [fst]; rewrite fmap_cons;
      apply stable_cons_None; try done.
    + by apply exec_evolves.
    + apply stable_singleton.
  - specialize (Hp s). destruct (p s) as [s'|e s']; cbn [fst];
      rewrite fmap_cons; apply stable_cons_None; try done.
    + apply IH. by rewrite Hp.
    + apply stable_singleton.
Qed.
End Evolution.

#[local] Instance same_except_preorder name : PreOrder (same_except name).
Proof.
  split.
  - by intros d n Hn.
  - intros d1 d2 d3 H12 H23 n Hn. by rewrite H23, H12.
Qed.

Ltac solve_keeps :=
  apply on_vars_keeps; intros ? ? ?; inv_result; subst; reflexivity.

Lemma load_stmts_keeps {A} (get : locals → option A) L ruta :
  (∀ d v, get (set_df d v) = get v) → Forall (keeps get) (load_stmts L ruta).
Proof.
  intros Hget. unfold load_stmts. apply Forall_app. split.
  - rewrite !Forall_cons. split_and!; [| |constructor].
    + intros s. unfold stmt_read_csv.
      destruct (files (outside s) !! ruta); [|done].
      destruct (read_csv_text L _); [|done]. apply Hget.
    + apply on_vars_keeps. intros ? ? ?. inv_result. subst. apply Hget.
  - apply Forall_fmap, Forall_true. intros col.
    apply on_vars_keeps. intros ? ? ?. inv_result. subst. apply Hget.
Qed.

Lemma report_stmts_keeps {A} (get : locals → option A) L E out :
  (∀ f v, get (set_figs f v) = get v) → Forall (keeps get) (report_stmts L E out).
Proof.
  intros Hget. unfold report_stmts. rewrite !Forall_cons. split_and!.
  - apply on_vars_keeps. intros ? ? ?. inv_result. subst. apply Hget.
  - intros s. by destruct (stmt_html_content_raises L E s) as (e & -> & _).
  - intros s. unfold stmt_write, set_files.
    destruct (html_content (vars s)); [|done].
    destruct (open_error E); [done|].
    destruct (disk_room E); [|done]. by case_bool_decide.
  - intros s. done.
  - constructor.
Qed.

Lemma stmt_route_evolves : evolves (same_except "Route") df stmt_route.
Proof.
  intros s x Hx. unfold stmt_route, on_vars. rewrite Hx. simpl.
  destruct (route_column x) as [c|e]; simpl.
  - eexists. split; [done|]. intros n Hn. by apply getitem_setitem_ne.
  - by exists x.
Qed.

Lemma stmt_iso_alpha_evolves :
  evolves (same_except "iso_alpha") country_passengers stmt_iso_alpha.
Proof.
  intros s x Hx. unfold stmt_iso_alpha, on_vars. rewrite Hx. simpl.
  unfold add_iso_alpha. destruct (getitem "Country" x) as [c|e]; simpl.
  - eexists. split; [done|]. intros n Hn. by apply getitem_setitem_ne.
  - by exists x.
Qed.

Lemma report_stmts_evolve {A} (R : relation A) `{!PreOrder R}
    (get : locals → option A) L E out :
  (∀ f v, get (set_figs f v) = get v) → Forall (evolves R get) (report_stmts L E out).
Proof.
  intros Hget. eapply Forall_impl; [by apply (report_stmts_keeps get)|].
  intros st. by apply keeps_evolves.
Qed.

(** C9, as amended.  The yearly aggregate and the three rankings are never
    changed once they are assigned.  The country table is changed after it
    is assigned, by line 75 only, which sets its column iso_alpha and leaves
    its other columns as they were.  The loaded table is changed in place
    too: by the cleaning and, from the first aggregation on, by line 50
    only, which sets its column Route and leaves its other columns as they
    were. *)
Theorem entities_after_creation (L : library) (E : environment)
    (ruta_csv archivo_salida_html : string) (w : world) :
  immutable yearly_traffic (history L E ruta_csv archivo_salida_html w)
  ∧ immutable top_aus_ports (history L E ruta_csv archivo_salida_html w)
  ∧ immutable top_countries (history L E ruta_csv archivo_salida_html w)
  ∧ immutable top_routes (history L E ruta_csv archivo_salida_html w)
  ∧ stable (same_except "iso_alpha") country_passengers
      (history L E ruta_csv archivo_salida_html w)
  ∧ ∀ s, stable (same_except "Route") df
           (vars <$> (exec (aggregate_stmts
                            ++ report_stmts L E archivo_salida_html) s).1).
Proof.
  unfold immutable, history. split_and!.
  - refine (exec_assigned eq yearly_traffic
              (load_stmts L ruta_csv ++ [stmt_kpis])%list stmt_yearly_traffic
              ([stmt_top_aus_ports; stmt_top_countries; stmt_route; stmt_top_routes; stmt_country_passengers; stmt_iso_alpha] ++ report_stmts L E archivo_salida_html)%list
              _ _ (initial w) eq_refl).
    + apply Forall_app. split; [by apply (load_stmts_keeps yearly_traffic)|].
      repeat constructor; solve_keeps.
    + apply Forall_app. split; [|by apply (report_stmts_evolve _ yearly_traffic)].
      repeat constructor; apply keeps_evolves; try apply _; solve_keeps.
  - refine (exec_assigned eq top_aus_ports
              (load_stmts L ruta_csv ++ [stmt_kpis; stmt_yearly_traffic])%list stmt_top_aus_ports
              ([stmt_top_countries; stmt_route; stmt_top_routes; stmt_country_passengers; stmt_iso_alpha] ++ report_stmts L E archivo_salida_html)%list
              _ _ (initial w) eq_refl).
    + apply Forall_app. split; [by apply (load_stmts_keeps top_aus_ports)|].
      repeat constructor; solve_keeps.
    + apply Forall_app. split; [|by apply (report_stmts_evolve _ top_aus_ports)].
      repeat constructor; apply keeps_evolves; try apply _; solve_keeps.
  - refine (exec_assigned eq top_countries
              (load_stmts L ruta_csv ++ [stmt_kpis; stmt_yearly_traffic; stmt_top_aus_ports])%list stmt_top_countries
              ([stmt_route; stmt_top_routes; stmt_country_passengers; stmt_iso_alpha] ++ report_stmts L E archivo_salida_html)%list
              _ _ (initial w) eq_refl).
    + apply Forall_app. split; [by apply (load_stmts_keeps top_countries)|].
      repeat constructor; solve_keeps.
    + apply Forall_app. split; [|by apply (report_stmts_evolve _ top_countries)].
      repeat constructor; apply keeps_evolves; try apply _; solve_keeps.
  - refine (exec_assigned eq top_routes
              (load_stmts L ruta_csv ++ [stmt_kpis; stmt_yearly_traffic; stmt_top_aus_ports; stmt_top_countries; stmt_route])%list stmt_top_routes
              ([stmt_country_passengers; stmt_iso_alpha] ++ report_stmts L E archivo_salida_html)%list
              _ _ (initial w) eq_refl).
    + apply Forall_app. split; [by apply (load_stmts_keeps top_routes)|].
      repeat constructor; solve_keeps.
    + apply Forall_app. split; [|by apply (report_stmts_evolve _ top_routes)].
      repeat constructor; apply keeps_evolves; try apply _; solve_keeps.
  - refine (exec_assigned (same_except "iso_alpha") country_passengers
              (load_stmts L ruta_csv ++ [stmt_kpis; stmt_yearly_traffic; stmt_top_aus_ports; stmt_top_countries; stmt_route; stmt_top_routes])%list stmt_country_passengers
              ([stmt_iso_alpha] ++ report_stmts L E archivo_salida_html)%list
              _ _ (initial w) eq_refl).
    + apply Forall_app. split; [by apply (load_stmts_keeps country_passengers)|].
      repeat constructor; solve_keeps.
    + apply Forall_app. split; [|by apply (report_stmts_evolve _ country_passengers)].
      repeat constructor. apply stmt_iso_alpha_evolves.
  - intros s. apply exec_evolves; [apply _|].
    apply Forall_app. split; [|by apply (report_stmts_evolve _ df)].
    repeat constructor;
      first [ apply stmt_route_evolves
            | apply keeps_evolves; [apply _ | solve_keeps] ].
Qed.

(** * The report *)

(** Lines 29-31: the three headline numbers are the sums of their
    columns. *)
Lemma compute_kpis_sums d k :
  compute_kpis d = Ok k →
  column_sum "Passengers_Total" d = Ok (total_passengers k)
  ∧ column_sum "Freight_Total" d = Ok (total_freight k)
  ∧ column_sum "Mail_Total" d = Ok (total_mail k).
Proof. unfold compute_kpis. intros H. inv_result. by subst k. Qed.




(** C8.  The three headline numbers are computed and formatted, but the
    document that should embed them is never assembled: in every run the
    variable html_content stays unassigned in every state, no file is
    written, and the message printed is not the success message. *)
Theorem report_never_assembled (L : library) (E : environment)
    (ruta_csv archivo_salida_html : string) (w : world) :
  Forall (λ v, html_content v = None) (history L E ruta_csv archivo_salida_html w)
  ∧ files (crear_dashboard_ejecutivo L E ruta_csv archivo_salida_html w) = files w
  ∧ ∃ m, stdout (crear_dashboard_ejecutivo L E ruta_csv archivo_salida_html w)
         = (stdout w ++ [m])%list
       ∧ m ≠ msg_ok archivo_salida_html.
Proof.
  split_and!.
  - unfold history, try_body. apply Forall_vars.
    change (λ s : state, html_content (vars s) = None)
      with (λ s : state, html_content (vars s) = html_content (vars (initial w))).
    apply (exec_keeps html_content).
    apply Forall_app. split; [by apply (load_stmts_keeps html_content)|].
    apply Forall_app. split; [|by apply (report_stmts_keeps html_content)].
    repeat constructor; solve_keeps.
  - apply run_files.
  - destruct (run_outcome L E ruta_csv archivo_salida_html w) as (e & _ & ->).
    eexists. split; [apply handler_stdout|].
    by destruct (is_file_not_found e).
Qed.

(** On the example table the run stops at the first chart field. *)
Example example_run :
  crear_dashboard_ejecutivo example_library example_environment
    "city_pairs.csv" "dashboard_trafico_aereo.html" example_world
  = print "Ocurrió un error inesperado: unhashable type: 'dict'" example_world.
Proof. vm_compute. reflexivity. Qed.

(** The headline numbers of the example table, as computed at lines 29-31
    and as the format of lines 165-173 renders them. *)
Example example_kpis :
  (k ← compute_kpis example_clean;
   mret (format_kpi (total_passengers k), format_kpi (total_freight k),
         format_kpi (total_mail k)))
  = Ok ("411", "5", "1").
Proof. vm_compute. reflexivity. Qed.

Example format_kpi_millions : format_kpi (qc 1234567 1) = "1,234,567".
Proof. vm_compute. reflexivity. Qed.

Example format_kpi_tie_even : format_kpi (qc 5 2) = "2" ∧ format_kpi (qc 7 2) = "4".
Proof. split; vm_compute; reflexivity. Qed.

(** What the write would do on a full disk, were it reached: the file is
    emptied before the device refuses the document. *)
Example write_cut_short :
  ∀ s html, html_content (vars s) = Some html → html ≠ "" →
    ∃ s', stmt_write other_environment "out.html" s = Raised
            (OSError "[Errno 28] No space left on device") s'
          ∧ files (outside s') !! "out.html" = Some "".
Proof.
  intros s html Hh Hne. unfold stmt_write. rewrite Hh. simpl.
  destruct html as [|c html]; [done|]. simpl.
  eexists. split; [reflexivity|]. simpl. by rewrite lookup_insert_eq.
Qed.

(** * The statements at the example table *)

Lemma example_clean_eq :
  coerce_columns example_library cols_numericas (rename_columns example_frame)
  = Ok example_clean.
Proof. vm_compute. reflexivity. Defined.

Lemma example_clean_rows : has_rows 3 example_clean.
Proof. unfold has_rows. apply (bool_decide_unpack _). vm_compute. exact I. Defined.




Lemma top10_rankings_witness :
  stmt_top_aus_ports example_state = Next example_ranked
  ∧ ∃ d sums r,
      df (vars example_state) = Some d
      ∧ groupby_sum "AustralianPort" "Passengers_Total" d = Ok sums
      ∧ top_aus_ports (vars example_ranked) = Some r
      ∧ ranking_of sums r.
Proof.
  assert (stmt_top_aus_ports example_state = Next example_ranked) as H
    by (vm_compute; reflexivity).
  split; [exact H|].
  apply (top10_rankings "AustralianPort" stmt_top_aus_ports top_aus_ports
           example_state example_ranked); [|exact H].
  unfold ranking_stmts. apply list_elem_of_here.
Defined.




(** C9, as stated, fails on the example table: line 50 adds a column to the
    loaded table, which therefore differs between the state before it and
    the state after it, and line 75 does the same to the country table. *)
Lemma entities_after_creation_counterexample :
  ¬ immutable df
      (history example_library example_environment "city_pairs.csv" "out.html"
         example_world)
  ∧ ¬ immutable country_passengers
        (history example_library example_environment "city_pairs.csv" "out.html"
           example_world).
Proof.
  split; intros H; unfold immutable, stable in H.
  - edestruct (H 15%nat 16%nat) as (x' & Hx' & Heq);
      [lia | vm_compute; reflexivity | vm_compute; reflexivity
      | vm_compute; reflexivity |].
    subst x'. apply (f_equal (fmap (M := option) length)) in Hx'.
    vm_compute in Hx'. discriminate Hx'.
  - edestruct (H 18%nat 19%nat) as (x' & Hx' & Heq);
      [lia | vm_compute; reflexivity | vm_compute; reflexivity
      | vm_compute; reflexivity |].
    subst x'. apply (f_equal (fmap (M := option) length)) in Hx'.
    vm_compute in Hx'. discriminate Hx'.
Qed.

(** * The order of the groups *)

Lemma key_leb_total a b : key_leb a b = true ∨ key_leb b a = true.
Proof.
  destruct a as [x|s], b as [y|t]; simpl; auto.
  - rewrite !bool_decide_eq_true.
    destruct (Qclt_le_dec x y); [left; by apply Qclt_le_weak | by right].
  - destruct (total String.le s t) as [H|H]; [left|right];
      by apply Is_true_true.
Qed.

Lemma key_leb_trans a b c :
  key_leb a b = true → key_leb b c = true → key_leb a c = true.
Proof.
  destruct a as [x|s], b as [y|t], c as [z|u]; simpl; try done.
  - rewrite !bool_decide_eq_true. apply Qcle_trans.
  - intros H1%Is_true_true H2%Is_true_true. apply Is_true_true.
    by trans t.
Qed.

Lemma sort_index_sorted s :
  StronglySorted (λ a b, key_leb a b = true) (sort_index s).*1.
Proof.
  apply (StronglySorted_fmap fst (λ a b : key * Qc, key_leb a.1 b.1 = true)
           (λ a b, key_leb a b = true)); [done|].
  apply sort_by_sorted.
  - intros a b. apply key_leb_total.
  - intros a b c. apply key_leb_trans.
Qed.

(** X1.  A grouped sum lists one group for each key that occurs in some
    row, each key once, by ascending key, and the sum of a group is the sum
    of the metric over the rows of its key. *)
Theorem groupby_sum_groups_sorted (by_ metric : string) (d : dataframe) (sums : series) :
  groupby_sum by_ metric d = Ok sums →
  ∃ keys vs,
    getitem by_ d = Ok keys
    ∧ getitem metric d = Ok (NumCol vs)
    ∧ NoDup sums.*1
    ∧ StronglySorted (λ a b, key_leb a b = true) sums.*1
    ∧ (∀ k, k ∈ sums.*1 ↔ Some k ∈ (zip (keys_of keys) vs).*1)
    ∧ (∀ k v, (k, v) ∈ sums → v = sum_where (is_key k) (zip (keys_of keys) vs)).
Proof.
  intros H. pose proof H as (keys & vs & Hk & Hv & Hs)%groupby_sum_inv.
  exists keys, vs.
  destruct (groupby_sum_groups _ _ _ _ _ _ H Hk Hv) as (Hnd & Hin & Hval).
  split_and!; try done. rewrite Hs. apply sort_index_sorted.
Qed.

(** * The yearly table and the years *)

Lemma elem_of_present_keys k c : k ∈ present_keys c ↔ Some k ∈ keys_of c.
Proof.
  unfold present_keys. rewrite list_elem_of_omap. split.
  - intros (o & Ho & Hk). simpl in Hk. by subst o.
  - intros Hk. by exists (Some k).
Qed.

Lemma groupby_sum_length by_ metric d sums keys n :
  has_rows n d →
  groupby_sum by_ metric d = Ok sums →
  getitem by_ d = Ok keys →
  length sums = nunique keys.
Proof.
  intros Hd Hs Hk.
  pose proof Hs as (keys' & vs & Hk' & Hv & _)%groupby_sum_inv.
  assert (keys' = keys) as -> by congruence.
  destruct (groupby_sum_groups _ _ _ _ _ _ Hs Hk Hv) as (Hnd & Hin & _).
  rewrite zip_fst_length in Hin.
  2:{ rewrite length_keys_of, (has_rows_getitem _ _ _ _ Hd Hk).
      symmetry. apply (has_rows_getitem _ _ _ _ Hd Hv). }
  unfold nunique. rewrite <- (length_fmap fst sums).
  apply Permutation_length, NoDup_Permutation; [done|apply NoDup_remove_dups|].
  intros k. by rewrite Hin, elem_of_remove_dups, elem_of_present_keys.
Qed.

Lemma index_column_length ks : col_length (index_column ks) = length ks.
Proof. destruct ks as [|[q|s] ks]; simpl; by rewrite ?length_fmap. Qed.

Lemma values_column_length (s : series) : col_length (values_column s) = length s.
Proof. unfold values_column. simpl. by rewrite !length_fmap. Qed.

(** X2.  For a rectangular table, the yearly table is rectangular too and
    has one row for each distinct year of the table: as many rows as the
    count of years computed at line 32. *)
Theorem yearly_rows (d y : dataframe) (k : kpis) (n : nat) :
  has_rows n d →
  yearly d = Ok y →
  compute_kpis d = Ok k →
  y.*1 = ["Year"; "Passengers_Total"; "Freight_Total"; "Mail_Total"]
  ∧ has_rows (num_years k) y.
Proof.
  intros Hd Hy Hk. unfold yearly in Hy. unfold compute_kpis in Hk.
  inv_result. subst y k. simpl.
  repeat match goal with
  | H : groupby_sum "Year" _ d = Ok ?s |- _ =>
      lazymatch goal with
      | _ : length s = _ |- _ => fail
      | _ => let H' := fresh in
             epose proof (groupby_sum_length _ _ _ _ _ _ Hd H ltac:(eassumption)) as H'
      end
  end.
  split; [done|].
  unfold has_rows. repeat constructor; simpl;
    rewrite ?index_column_length, ?length_fmap; congruence.
Qed.

Lemma key_min_spec ks :
  match key_min ks with
  | None => ks = []
  | Some m => m ∈ ks ∧ ∀ k, k ∈ ks → key_leb m k = true
  end.
Proof.
  induction ks as [|k ks IH]; simpl; [done|].
  destruct (key_min ks) as [m|].
  - destruct IH as [Hm Hle]. destruct (key_leb k m) eqn:E.
    + split; [left|]. intros k' [->|Hk']%elem_of_cons.
      * by destruct (key_leb_total k k).
      * eapply key_leb_trans; eauto.
    + split; [by right|]. intros k' [->|Hk']%elem_of_cons; [|auto].
      destruct (key_leb_total k m); congruence.
  - subst ks. split; [left|]. intros k' ->%list_elem_of_singleton.
    by destruct (key_leb_total k k).
Qed.

Lemma key_max_spec ks :
  match key_max ks with
  | None => ks = []
  | Some m => m ∈ ks ∧ ∀ k, k ∈ ks → key_leb k m = true
  end.
Proof.
  induction ks as [|k ks IH]; simpl; [done|].
  destruct (key_max ks) as [m|].
  - destruct IH as [Hm Hle]. destruct (key_leb m k) eqn:E.
    + split; [left|]. intros k' [->|Hk']%elem_of_cons.
      * by destruct (key_leb_total k k).
      * eapply key_leb_trans; eauto.
    + split; [by right|]. intros k' [->|Hk']%elem_of_cons; [|auto].
      destruct (key_leb_total m k); congruence.
  - subst ks. split; [left|]. intros k' ->%list_elem_of_singleton.
    by destruct (key_leb_total k k).
Qed.

(** X3.  The first and the last year of the header are years of the table,
    and every year of the table lies between them; rows without a year are
    skipped, and both are missing exactly when no row has a year. *)
Theorem year_range (d : dataframe) (k : kpis) (years : column) :
  compute_kpis d = Ok k →
  getitem "Year" d = Ok years →
  (present_keys years = [] → start_year k = None ∧ end_year k = None)
  ∧ ∀ y, Some y ∈ keys_of years →
      ∃ lo hi, start_year k = Some lo ∧ end_year k = Some hi
               ∧ Some lo ∈ keys_of years ∧ Some hi ∈ keys_of years
               ∧ key_leb lo y = true ∧ key_leb y hi = true.
Proof.
  intros Hk Hy. unfold compute_kpis in Hk. inv_result.
  match goal with
  | H : getitem "Year" d = Ok ?y |- _ =>
      assert_fails (constr_eq y years); assert (years = y) as <- by congruence
  end.
  subst k. simpl.
  pose proof (key_min_spec (present_keys years)) as Hmin.
  pose proof (key_max_spec (present_keys years)) as Hmax.
  split.
  - intros ->. done.
  - intros y Hin%elem_of_present_keys.
    destruct (key_min _) as [lo|]; [|rewrite Hmin in Hin; by apply elem_of_nil in Hin].
    destruct (key_max _) as [hi|]; [|rewrite Hmax in Hin; by apply elem_of_nil in Hin].
    destruct Hmin as [Hlo Hle], Hmax as [Hhi Hge].
    exists lo, hi. rewrite <- !elem_of_present_keys. auto 10.
Qed.

(** * The size of a ranking *)

(** X4.  A ranking holds the ten largest groups when there are more than
    ten, and all the groups otherwise: it has min(10, number of groups)
    entries, no key twice, and is a rearrangement of the groups when there
    are at most ten. *)
Theorem top10_size (by_ : string) (d : dataframe) (r : series) :
  top10 by_ d = Ok r →
  ∃ sums,
    groupby_sum by_ "Passengers_Total" d = Ok sums
    ∧ length r = (length sums `min` 10)%nat
    ∧ NoDup r.*1
    ∧ ((length sums ≤ 10)%nat → r ≡ₚ sums).
Proof.
  unfold top10. intros H. apply bind_Ok in H as (sums & Hs & [= <-]).
  exists sums. split; [done|].
  pose proof Hs as (keys & vs & Hk & Hv & _)%groupby_sum_inv.
  destruct (groupby_sum_groups _ _ _ _ _ _ Hs Hk Hv) as (Hnd & _ & _).
  assert (sort_values (nlargest 10 sums) ≡ₚ nlargest 10 sums) as Hp
    by apply sort_by_Permutation.
  set (sorted := sort_by (λ a b : key * Qc, bool_decide (b.2 ≤ a.2)%Qc) sums).
  assert (sorted ≡ₚ sums) as Hsorted by apply sort_by_Permutation.
  split_and!.
  - rewrite Hp. unfold nlargest. fold sorted. rewrite length_take, Hsorted. lia.
  - rewrite Hp. unfold nlargest. fold sorted.
    rewrite <- Hsorted in Hnd. rewrite <- (take_drop 10 sorted), fmap_app in Hnd.
    by apply NoDup_app in Hnd as [? _].
  - intros Hlen. rewrite Hp. unfold nlargest. fold sorted.
    rewrite take_ge; [done|]. by rewrite Hsorted.
Qed.

(** * Cleaning twice *)

Lemma setitem_same name c (d : dataframe) :
  getitem name d = Ok c → setitem name c d = d.
Proof.
  intros H. unfold setitem. rewrite bool_decide_true by eauto using getitem_label.
  apply getitem_Ok in H. unfold with_label in H.
  induction d as [|[m x] d IH]; [done|].
  rewrite fmap_cons. rewrite filter_cons in H. cbn [fst] in *.
  case_bool_decide as Hm.
  - subst m. rewrite decide_True in H by done. injection H as -> H.
    f_equal. clear IH. induction d as [|[m' x'] d IH]; [done|].
    rewrite filter_cons in H. cbn [fst] in H.
    destruct (decide (m' = name)); [done|].
    rewrite fmap_cons. cbn [fst]. rewrite bool_decide_false by done.
    f_equal. auto.
  - rewrite decide_False in H by done. f_equal. auto.
Qed.

Lemma fillna_id vs : Forall is_Some vs → fillna 0%Qc vs = vs.
Proof.
  unfold fillna. induction 1 as [|o vs [q ->] _ IH]; [done|].
  rewrite fmap_cons. simpl. by f_equal.
Qed.

Lemma coerce_columns_clean L cols : ∀ d,
  (∀ col, col ∈ cols → ∃ vs, getitem col d = Ok (NumCol vs) ∧ Forall is_Some vs) →
  coerce_columns L cols d = Ok d.
Proof.
  induction cols as [|col cols IH]; intros d Hd; [done|].
  destruct (Hd col) as (vs & Hc & Hvs); [left|].
  cbn [coerce_columns]. unfold coerce_column. rewrite Hc. simpl.
  rewrite fillna_id by done. rewrite setitem_same by done.
  apply IH. intros col' Hin. apply Hd. by right.
Qed.

Lemma numeric_coercion_spec L d d' :
  coerce_columns L cols_numericas d = Ok d' →
  ∀ col, col ∈ cols_numericas →
    ∃ vs, getitem col d' = Ok (NumCol vs) ∧ Forall is_Some vs.
Proof.
  intros H col Hcol.
  destruct (coerce_columns_spec L _ _ _ cols_numericas_NoDup H) as (_ & _ & _ & Hn).
  destruct (Hn _ Hcol) as (c & _ & Hc'). eexists. split; [exact Hc'|].
  unfold fillna. apply Forall_fmap, Forall_true. intros o. simpl. eauto.
Qed.

(** X5.  Cleaning is idempotent: the loop of lines 23-24, run on a table it
    has already cleaned, succeeds and leaves the table as it is. *)
Theorem coercion_idempotent (L : library) (d d' : dataframe) :
  coerce_columns L cols_numericas d = Ok d' →
  coerce_columns L cols_numericas d' = Ok d'.
Proof.
  intros H. apply coerce_columns_clean. intros col Hcol.
  destruct (numeric_coercion_spec L d d' H col Hcol) as (vs & Hvs & Hall). eauto.
Qed.

(** * Runs that stop in the cleaning *)










(** * Runs on a complete table *)








(** * Routes *)

(** X8.  The route of a row is its Australian port, the separator and its
    foreign port, and is missing when either port is missing; the column
    has a cell for each row, so that line 50 keeps the table rectangular.
    A port column that is numeric makes the statement raise. *)
Theorem route_cells (d : dataframe) (c : column) (n : nat) :
  has_rows n d →
  route_column d = Ok c →
  ∃ a f r,
    getitem "AustralianPort" d = Ok (ObjCol a)
    ∧ getitem "ForeignPort" d = Ok (ObjCol f)
    ∧ c = ObjCol r
    ∧ has_rows n (setitem "Route" c d)
    ∧ ∀ i p q, a !! i = Some p → f !! i = Some q →
        r !! i = Some (match p, q with
                       | Some x, Some y => Some ((x +:+ " - ") +:+ y)
                       | _, _ => None
                       end).
Proof.
  intros Hd H. unfold route_column in H.
  apply bind_Ok in H as (ca & Ha & H). apply bind_Ok in H as (cal & Hal & H).
  apply bind_Ok in H as (cf & Hf & H).
  destruct ca as [?|a]; [done|]. simpl in Hal. simplify_eq.
  destruct cf as [?|f]; [done|]. simpl in H. simplify_eq.
  exists a, f. eexists. split_and!; try done.
  - apply has_rows_setitem; [done|]. simpl.
    rewrite length_zip_with, length_fmap.
    pose proof (has_rows_getitem _ _ _ _ Hd Ha) as H1.
    pose proof (has_rows_getitem _ _ _ _ Hd Hf) as H2. simpl in *. lia.
  - intros i p q Hp Hq. rewrite lookup_zip_with, list_lookup_fmap, Hp. simpl.
    rewrite Hq. simpl. by destruct p, q.
Qed.

(** * The regions of the map *)

Lemma dict_get_elem (m : list (string * option string)) k v :
  dict_get m k = Some v → (k, v) ∈ m.
Proof.
  induction m as [|[k' v'] m IH]; simpl; [done|].
  destruct (decide (k = k')) as [->|]; [intros [= ->]; left | right; auto].
Qed.

Lemma assoc_values_inj (m : list (string * option string)) k k' v :
  NoDup m.*2 → (k, v) ∈ m → (k', v) ∈ m → k = k'.
Proof.
  induction m as [|[k0 v0] m IH]; intros Hnd H1 H2; [by apply elem_of_nil in H1|].
  rewrite fmap_cons in Hnd. apply NoDup_cons in Hnd as [Hv0 Hnd]. cbn [snd] in Hv0.
  apply elem_of_cons in H1 as [H1|H1]; apply elem_of_cons in H2 as [H2|H2];
    simplify_eq; try done.
  - exfalso. apply Hv0. apply list_elem_of_fmap. by exists (k', v0).
  - exfalso. apply Hv0. apply list_elem_of_fmap. by exists (k, v0).
  - auto.
Qed.

(** No two countries of the mapping share a code. *)
Lemma country_iso_map_values : NoDup country_iso_map.*2.
Proof. compute_done. Qed.

Lemma iso_code_Some (m : list (string * option string)) o code :
  iso_code m o = Some code →
  ∃ name, o = Some name ∧ dict_get m name = Some (Some code).
Proof.
  unfold iso_code. destruct o as [name|]; [|done]. cbn [mbind option_bind].
  destruct (dict_get m name) as [[c|]|] eqn:E; cbn; intros H; simplify_eq.
  exists name. by rewrite E.
Qed.

Lemma iso_code_inj o o' code :
  iso_code country_iso_map o = Some code →
  iso_code country_iso_map o' = Some code → o = o'.
Proof.
  intros (name & -> & H)%iso_code_Some (name' & -> & H')%iso_code_Some.
  f_equal. apply dict_get_elem in H, H'.
  eapply assoc_values_inj; eauto using country_iso_map_values.
Qed.

Lemma plotted_entry (m : list (string * option string)) names code h :
  (code, h) ∈ omap (λ p : option string * option string, (λ c, (c, p.2)) <$> p.1)
                   (zip (iso_code m <$> names) names) →
  h ∈ names ∧ iso_code m h = Some code.
Proof.
  induction names as [|o names IH]; simpl; [by intros ?%elem_of_nil|].
  destruct (iso_code m o) as [c|] eqn:E; simpl.
  - intros [[= -> ->]|H]%elem_of_cons; [split; [left|done]|].
    destruct (IH H). split; [by right|done].
  - intros H. destruct (IH H). split; [by right|done].
Qed.

Lemma plotted_NoDup names :
  NoDup names →
  NoDup (omap (λ p : option string * option string, (λ c, (c, p.2)) <$> p.1)
              (zip (iso_code country_iso_map <$> names) names)).*1.
Proof.
  induction 1 as [|o names Ho Hnd IH]; simpl; [constructor|].
  destruct (iso_code country_iso_map o) as [c|] eqn:E; simpl; [|done].
  constructor; [|done].
  intros ([c' h] & Hc & Hin)%list_elem_of_fmap. simpl in Hc. subst c'.
  apply plotted_entry in Hin as [Hh Hcode].
  by rewrite (iso_code_inj _ _ _ E Hcode) in Ho.
Qed.

Lemma keys_of_kind c :
  Forall (λ o, ∀ k, o = Some k → ∃ t, k = KStr t) (keys_of c)
  ∨ Forall (λ o, ∀ k, o = Some k → ∃ q, k = KNum q) (keys_of c).
Proof.
  destruct c as [vs|vs]; [right|left]; simpl; apply Forall_fmap, Forall_true;
    intros [x|] k; simpl; intros [=]; eauto.
Qed.

Lemma index_column_num ks :
  Forall (λ k, ∃ q, k = KNum q) ks →
  map_dict country_iso_map (index_column ks) = ObjCol ((λ _, None) <$> ks).
Proof.
  destruct 1 as [|k ks [q ->] Hks]; [done|]. simpl. f_equal.
  by rewrite <- list_fmap_compose.
Qed.

Lemma plotted_none {A} (names : list A) (hover : list (option string)) :
  omap (λ p : option string * option string, (λ c, (c, p.2)) <$> p.1)
       (zip ((λ _, None) <$> names) hover) = [].
Proof.
  revert hover. induction names as [|o names IH]; intros [|h hover]; simpl; auto.
Qed.

(** X9.  The map shades no region twice: the plotted regions of the map
    built from any table have pairwise distinct codes, and each is the code
    that the mapping gives to its hover name. *)
Theorem map_regions_distinct (d cp cp' : dataframe) (fig : figure) :
  country_table d = Ok cp →
  add_iso_alpha cp = Ok cp' →
  choropleth_chart cp' = Ok fig →
  NoDup (plotted fig).*1
  ∧ ∀ code hover, (code, hover) ∈ plotted fig →
      ∃ name, hover = Some name
              ∧ dict_get country_iso_map name = Some (Some code).
Proof.
  intros Hcp Hiso Hfig.
  unfold country_table in Hcp. apply bind_Ok in Hcp as (s & Hs & [= <-]).
  pose proof Hs as (keys & vs & Hk & Hv & _)%groupby_sum_inv.
  destruct (groupby_sum_groups _ _ _ _ _ _ Hs Hk Hv) as (Hnd & Hkeys & _).
  destruct (keys_of_kind keys) as [Hkind|Hkind].
  - assert (Forall (λ k, ∃ t, k = KStr t) s.*1) as Hstr.
    { apply Forall_forall. intros k Hin%Hkeys%zip_fst_subseteq.
      rewrite Forall_forall in Hkind. by apply (Hkind _ Hin). }
    rewrite (index_column_str _ Hstr) in Hiso.
    cbn in Hiso. injection Hiso as <-. cbn in Hfig. injection Hfig as <-.
    unfold plotted, trace_cells. cbn.
    assert (NoDup (key_str <$> s.*1)) as Hnames.
    { apply NoDup_fmap_2_strong; [|done].
      intros k k' Hin Hin' Heq. rewrite Forall_forall in Hstr.
      destruct (Hstr _ Hin) as [t ->], (Hstr _ Hin') as [t' ->]. simpl in Heq.
      congruence. }
    split; [by apply plotted_NoDup|].
    intros code hover [Hh Hcode]%plotted_entry.
    by apply iso_code_Some in Hcode.
  - assert (Forall (λ k, ∃ q, k = KNum q) s.*1) as Hnum.
    { apply Forall_forall. intros k Hin%Hkeys%zip_fst_subseteq.
      rewrite Forall_forall in Hkind. by apply (Hkind _ Hin). }
    assert (add_iso_alpha
              [("Country", index_column s.*1); ("Passengers_Total", values_column s)]
            = Ok (setitem "iso_alpha" (map_dict country_iso_map (index_column s.*1))
                    [("Country", index_column s.*1);
                     ("Passengers_Total", values_column s)])) as Hiso'
      by reflexivity.
    rewrite Hiso', (index_column_num _ Hnum) in Hiso.
    injection Hiso as <-. cbn in Hfig. injection Hfig as <-.
    unfold plotted, trace_cells.
    change (getitem "locations" _) with (Ok (ObjCol ((λ _ : key, @None string) <$> s.*1))).
    cbn [object_cells]. rewrite plotted_none.
    split; [constructor|]. by intros code hover ?%elem_of_nil.
Qed.

(** * Labels that need no cleaning *)








(** The nine numeric labels, and the other labels the script reads, are
    canonical. *)
Lemma labels_canonical :
  Forall canonical (cols_numericas
                    ++ ["Year"; "Country"; "AustralianPort"; "ForeignPort"])%list.
Proof. repeat constructor. Qed.

(** * The rendering of a headline number *)









(** * An input that cannot be read *)

(** X13.  When the file is there but [read_csv] raises, the run stops at its
    first statement: no local variable is ever assigned, the exception goes
    to the handler, and no file is created or changed. *)
Theorem unreadable_input (L : library) (E : environment)
    (ruta_csv archivo_salida_html text : string) (e : exn) (w : world) :
  files w !! ruta_csv = Some text →
  read_csv_text L text = Raise e →
  crear_dashboard_ejecutivo L E ruta_csv archivo_salida_html w
  = handler ruta_csv e w
  ∧ Forall (λ v, v = no_locals) (history L E ruta_csv archivo_salida_html w)
  ∧ files (crear_dashboard_ejecutivo L E ruta_csv archivo_salida_html w) = files w.
Proof.
  intros Hf Hr.
  assert (stmt_read_csv L ruta_csv (initial w) = Raised e (initial w)) as Hst.
  { unfold stmt_read_csv. cbn [initial outside]. by rewrite Hf, Hr. }
  assert (exec (try_body L E ruta_csv archivo_salida_html) (initial w)
          = ([initial w; initial w], Some e)) as Hex.
  { unfold try_body, load_stmts. cbn [app exec]. by rewrite Hst. }
  assert (crear_dashboard_ejecutivo L E ruta_csv archivo_salida_html w
          = handler ruta_csv e w) as Hrun.
  { unfold crear_dashboard_ejecutivo. rewrite Hex. reflexivity. }
  split_and!.
  - exact Hrun.
  - unfold history. rewrite Hex. by repeat constructor.
  - rewrite Hrun. unfold handler. by destruct (is_file_not_found e).
Qed.

(** * The column added at line 50 *)

(** X14.  Adding the column Route disturbs no aggregate taken over other
    columns: the sums per group, the table per country, the yearly table and
    the headline numbers are the same on the frame with the new column as on
    the frame without it. *)
Theorem route_leaves_aggregates (d : dataframe) (c : column) (by_ metric : string) :
  by_ ≠ "Route" → metric ≠ "Route" →
  groupby_sum by_ metric (setitem "Route" c d) = groupby_sum by_ metric d
  ∧ country_table (setitem "Route" c d) = country_table d
  ∧ yearly (setitem "Route" c d) = yearly d
  ∧ compute_kpis (setitem "Route" c d) = compute_kpis d.
Proof.
  intros Hb Hm.
  assert (∀ b m, b ≠ "Route" → m ≠ "Route" →
            groupby_sum b m (setitem "Route" c d) = groupby_sum b m d) as Hg.
  { intros b m ? ?. unfold groupby_sum. by rewrite !getitem_setitem_ne. }
  split_and!.
  - by apply Hg.
  - unfold country_table. by rewrite Hg.
  - unfold yearly. by rewrite !Hg.
  - unfold compute_kpis, column_sum. by rewrite !getitem_setitem_ne.
Qed.

(** * The further properties on the example table *)

Lemma groupby_sum_groups_sorted_witness :
  groupby_sum "Country" "Passengers_Total" example_clean = Ok example_country_sums
  ∧ NoDup example_country_sums.*1
  ∧ StronglySorted (λ a b, key_leb a b = true) example_country_sums.*1.
Proof.
  assert (groupby_sum "Country" "Passengers_Total" example_clean
          = Ok example_country_sums) as H by (vm_compute; reflexivity).
  split; [exact H|].
  destruct (groupby_sum_groups_sorted _ _ _ _ H) as (? & ? & _ & _ & Hn & Hs & _).
  exact (conj Hn Hs).
Defined.

Lemma yearly_rows_witness :
  has_rows 3 example_clean
  ∧ yearly example_clean = Ok example_yearly
  ∧ compute_kpis example_clean = Ok example_numbers
  ∧ example_yearly.*1 = ["Year"; "Passengers_Total"; "Freight_Total"; "Mail_Total"]
  ∧ has_rows (num_years example_numbers) example_yearly.
Proof.
  assert (yearly example_clean = Ok example_yearly) as Hy by (vm_compute; reflexivity).
  assert (compute_kpis example_clean = Ok example_numbers) as Hk by (vm_compute; reflexivity).
  split_and!; [exact example_clean_rows|exact Hy|exact Hk|..];
    apply (yearly_rows example_clean example_yearly example_numbers 3
             example_clean_rows Hy Hk).
Defined.

Lemma year_range_witness :
  compute_kpis example_clean = Ok example_numbers
  ∧ getitem "Year" example_clean = Ok example_years
  ∧ ∀ y, Some y ∈ keys_of example_years →
      ∃ lo hi, start_year example_numbers = Some lo ∧ end_year example_numbers = Some hi
               ∧ Some lo ∈ keys_of example_years ∧ Some hi ∈ keys_of example_years
               ∧ key_leb lo y = true ∧ key_leb y hi = true.
Proof.
  assert (compute_kpis example_clean = Ok example_numbers) as Hk by (vm_compute; reflexivity).
  assert (getitem "Year" example_clean = Ok example_years) as Hy by (vm_compute; reflexivity).
  split_and!; [exact Hk|exact Hy|].
  exact (proj2 (year_range example_clean example_numbers example_years Hk Hy)).
Defined.

Lemma top10_size_witness :
  top10 "Country" example_clean = Ok example_top_countries
  ∧ ∃ sums,
      groupby_sum "Country" "Passengers_Total" example_clean = Ok sums
      ∧ length example_top_countries = (length sums `min` 10)%nat
      ∧ NoDup example_top_countries.*1
      ∧ ((length sums ≤ 10)%nat → example_top_countries ≡ₚ sums).
Proof.
  assert (top10 "Country" example_clean = Ok example_top_countries) as H
    by (vm_compute; reflexivity).
  split; [exact H|].
  exact (top10_size "Country" example_clean example_top_countries H).
Defined.

Lemma coercion_idempotent_witness :
  coerce_columns example_library cols_numericas (rename_columns example_frame)
  = Ok example_clean
  ∧ coerce_columns example_library cols_numericas example_clean = Ok example_clean.
Proof.
  split; [exact example_clean_eq|].
  exact (coercion_idempotent example_library _ _ example_clean_eq).
Defined.




Lemma route_cells_witness :
  has_rows 3 example_clean
  ∧ route_column example_clean = Ok example_route
  ∧ example_route
    = ObjCol [Some "Sydney - Auckland"; Some "Sydney - London"; Some "Melbourne - Noumea"]
  ∧ has_rows 3 (setitem "Route" example_route example_clean).
Proof.
  assert (route_column example_clean = Ok example_route) as H by (vm_compute; reflexivity).
  split_and!; [exact example_clean_rows|exact H|vm_compute; reflexivity|].
  destruct (route_cells example_clean example_route 3 example_clean_rows H)
    as (? & ? & ? & _ & _ & _ & Hrows & _).
  exact Hrows.
Defined.

Lemma map_regions_distinct_witness :
  country_table example_clean = Ok example_countries
  ∧ add_iso_alpha example_countries = Ok example_countries_iso
  ∧ choropleth_chart example_countries_iso = Ok example_map
  ∧ NoDup (plotted example_map).*1.
Proof.
  assert (country_table example_clean = Ok example_countries) as H1
    by (vm_compute; reflexivity).
  assert (add_iso_alpha example_countries = Ok example_countries_iso) as H2
    by (vm_compute; reflexivity).
  assert (choropleth_chart example_countries_iso = Ok example_map) as H3
    by (vm_compute; reflexivity).
  split_and!; [exact H1|exact H2|exact H3|].
  exact (proj1 (map_regions_distinct example_clean example_countries
                  example_countries_iso example_map H1 H2 H3)).
Defined.




Lemma unreadable_input_witness :
  files ragged_world !! "city_pairs.csv" = Some "a,b
1,2
1,2,3
"
  ∧ read_csv_text example_library "a,b
1,2
1,2,3
" = Raise (ParserError "Error tokenizing data")
  ∧ crear_dashboard_ejecutivo example_library example_environment
      "city_pairs.csv" "out.html" ragged_world
    = handler "city_pairs.csv" (ParserError "Error tokenizing data") ragged_world.
Proof.
  assert (files ragged_world !! "city_pairs.csv" = Some "a,b
1,2
1,2,3
") as Hf by (vm_compute; reflexivity).
  assert (read_csv_text example_library "a,b
1,2
1,2,3
" = Raise (ParserError "Error tokenizing data")) as Hr by (vm_compute; reflexivity).
  split_and!; [exact Hf|exact Hr|].
  exact (proj1 (unreadable_input example_library example_environment
                  "city_pairs.csv" "out.html" _ _ ragged_world Hf Hr)).
Defined.

Lemma route_leaves_aggregates_witness :
  "Country" ≠ "Route" ∧ "Passengers_Total" ≠ "Route"
  ∧ country_table (setitem "Route" example_route example_clean)
    = country_table example_clean.
Proof.
  assert ("Country" ≠ "Route") as H1 by (apply (bool_decide_unpack _); vm_compute; exact I).
  assert ("Passengers_Total" ≠ "Route") as H2
    by (apply (bool_decide_unpack _); vm_compute; exact I).
  split_and!; [exact H1|exact H2|].
  exact (proj1 (proj2 (route_leaves_aggregates example_clean example_route
                         "Country" "Passengers_Total" H1 H2))).
Defined.
